(** * release-pr: a shallow embedding of [src/main.ts]

    The action resolves a crate in a cargo workspace, runs [cargo release]
    on a fresh branch, pushes it and opens a pull request whose title and
    body are rendered from templates.

    Strings are [string]s whose characters stand for code units below 256.
    Asynchronous functions become computations in a state-and-exception
    monad over the world the action talks to (processes, files, the GitHub
    API).  Calls to [debug] only write to the debug log and are left out;
    [info], [warning], [error], [setOutput] and [setFailed] are recorded. *)

From Stdlib Require Import String Ascii List Bool ZArith Lia DecimalString.
Import ListNotations.
Open Scope list_scope.
Open Scope string_scope.

Set Implicit Arguments.

(** ** Strings *)

Module Str.

(** [[a, b, ...].join(sep)] *)
Fixpoint join (sep : string) (l : list string) : string :=
  match l with
  | [] => ""
  | [x] => x
  | x :: rest => x ++ sep ++ join sep rest
  end.

(** [s.split(sep)] for a one-character separator. *)
Fixpoint split (sep : ascii) (s : string) : list string :=
  match s with
  | EmptyString => [""]
  | String c r =>
      if Ascii.eqb c sep then "" :: split sep r
      else match split sep r with
           | h :: t => String c h :: t
           | [] => [String c ""]
           end
  end.

Definition code (c : ascii) : nat := nat_of_ascii c.

(** ECMAScript WhiteSpace and LineTerminator code units below 256:
    TAB, LF, VT, FF, CR, SP, NBSP.  This is what [\s] matches, what
    [\S] rejects, and what [trim] strips. *)
Definition is_space (c : ascii) : bool :=
  let n := code c in
  (Nat.leb 9 n && Nat.leb n 13) || Nat.eqb n 32 || Nat.eqb n 160.

(** What [.] rejects in a regular expression: LF and CR. *)
Definition is_line_terminator (c : ascii) : bool :=
  let n := code c in Nat.eqb n 10 || Nat.eqb n 13.

Fixpoint forallb (p : ascii -> bool) (s : string) : bool :=
  match s with
  | EmptyString => true
  | String c r => p c && forallb p r
  end.

Fixpoint drop_while (p : ascii -> bool) (s : string) : string :=
  match s with
  | EmptyString => ""
  | String c r => if p c then drop_while p r else s
  end.

Fixpoint rev_acc (s acc : string) : string :=
  match s with
  | EmptyString => acc
  | String c r => rev_acc r (String c acc)
  end.

Definition rev (s : string) : string := rev_acc s "".

(** [s.trim()] *)
Definition trim (s : string) : string :=
  rev (drop_while is_space (rev (drop_while is_space s))).

(** The longest prefix of characters satisfying [p], and the rest. *)
Fixpoint span (p : ascii -> bool) (s : string) : string * string :=
  match s with
  | EmptyString => ("", "")
  | String c r =>
      if p c then let (a, b) := span p r in (String c a, b)
      else ("", s)
  end.

(** [strip_prefix p s] is [Some r] when [s = p ++ r]. *)
Fixpoint strip_prefix (p s : string) : option string :=
  match p, s with
  | EmptyString, _ => Some s
  | String a p', String b s' =>
      if Ascii.eqb a b then strip_prefix p' s' else None
  | String _ _, EmptyString => None
  end.

(** [strip_last c s] is [Some r] when [s = r ++ c]. *)
Fixpoint strip_last (c : ascii) (s : string) : option string :=
  match s with
  | EmptyString => None
  | String a EmptyString => if Ascii.eqb a c then Some "" else None
  | String a r => option_map (String a) (strip_last c r)
  end.

(** The one-character string holding a double quote. *)
Definition dquote : string := String (ascii_of_nat 34) EmptyString.

Definition nonempty (s : string) : bool :=
  match s with EmptyString => false | String _ _ => true end.

Definition last_is (c : ascii) (s : string) : bool :=
  match strip_last c s with Some _ => true | None => false end.

End Str.

(** ** Node's [path] module, POSIX flavour *)

Module Path.

(** One separator met by [normalizeString]: the segment just read is
    dropped when empty or [.], removes the segment before it when it is
    [..] (or is kept as [..] when nothing can be removed and the path is
    relative), and is appended otherwise.  [stack] holds the result so
    far, last segment first. *)
Definition push (allowAboveRoot : bool) (stack : list string) (seg : string)
  : list string :=
  if (seg =? "") || (seg =? ".") then stack
  else if seg =? ".." then
    match stack with
    | top :: below =>
        if top =? ".." then (if allowAboveRoot then seg :: stack else stack)
        else below
    | [] => if allowAboveRoot then [seg] else []
    end
  else seg :: stack.

Definition normalizeString (path : string) (allowAboveRoot : bool) : string :=
  Str.join "/" (List.rev (fold_left (push allowAboveRoot) (Str.split "/" path) [])).

(** [path.normalize] *)
Definition normalize (path : string) : string :=
  match path with
  | EmptyString => "."
  | String c0 _ =>
      let isAbsolute := Ascii.eqb c0 "/" in
      let trailingSeparator := Str.last_is "/" path in
      let p := normalizeString path (negb isAbsolute) in
      match p with
      | EmptyString =>
          if isAbsolute then "/"
          else if trailingSeparator then "./" else "."
      | _ =>
          let p := if trailingSeparator then p ++ "/" else p in
          if isAbsolute then "/" ++ p else p
      end
  end.

(** [path.join(a, b)] *)
Definition join (a b : string) : string :=
  match filter Str.nonempty [a; b] with
  | [] => "."
  | parts => normalize (Str.join "/" parts)
  end.

End Path.

(** ** Data *)

(** [CrateArgs]: both fields may be absent ([undefined] or [null]). *)
Module CrateArgs.
Record t := make { name : option string; path : option string }.
Definition none : t := make None None.
End CrateArgs.

Module CrateDetails.
Record t := make { name : string; path : string; version : string }.

(** A [CrateDetails] passed where [CrateArgs] is expected, as
    [runCargoRelease] does with [pkgid(crate)]. *)
Definition as_args (c : t) : CrateArgs.t :=
  CrateArgs.make (Some (name c)) (Some (path c)).
End CrateDetails.

(** The [pr] part of the inputs, as spelled out in [TemplateVars]. *)
Record PrInputs := {
  pr_title : string;
  pr_label : option string;
  pr_draft : bool;
  pr_modifiable : bool;
  pr_template : option string;
  pr_templateFile : option string;
  pr_mergeStrategy : string;
  pr_releaseNotes : bool
}.

Record GitInputs := {
  git_name : string;
  git_email : string;
  git_branchPrefix : string;
  git_branchSeparator : string
}.

(** [InputsType], as far as [main.ts] reads it. *)
Record Inputs := {
  githubToken : string;
  baseBranch : option string;
  in_version : string;
  in_git : GitInputs;
  in_crate : CrateArgs.t;
  in_pr : PrInputs
}.

Record TemplateVars := {
  vars_pr : PrInputs;
  vars_crate_name : string;
  vars_crate_path : string;
  vars_version_previous : string;
  vars_version_actual : string;
  vars_version_desired : string;
  vars_branchName : string;
  vars_title : option string
}.

(** [vars.title = title] *)
Definition set_title (vars : TemplateVars) (title : string) : TemplateVars :=
  {| vars_pr := vars_pr vars;
     vars_crate_name := vars_crate_name vars;
     vars_crate_path := vars_crate_path vars;
     vars_version_previous := vars_version_previous vars;
     vars_version_actual := vars_version_actual vars;
     vars_version_desired := vars_version_desired vars;
     vars_branchName := vars_branchName vars;
     vars_title := Some title |}.

(** The body of [POST /repos/{owner}/{repo}/pulls]. *)
Record PullRequest := {
  pull_title : string;
  pull_body : string;
  pull_head : string;
  pull_base : string;
  pull_maintainer_can_modify : bool;
  pull_draft : bool
}.

Record URLParts := { protocol : string; pathname : string }.

(** A JavaScript value is truthy, for an optional string, when it is a
    non-empty string. *)
Definition truthy (s : option string) : bool :=
  match s with
  | Some s => Str.nonempty s
  | None => false
  end.

(** ** Effects *)

(** What a [throw] carries, as far as the top-level [catch] tells apart. *)
Inductive Thrown :=
| JsError (message : string)
| JsString (s : string)
| JsOther.

Inductive Result (A : Type) :=
| Ok (a : A)
| Throw (e : Thrown).
Arguments Ok {A} a.
Arguments Throw {A} e.

(** What the action reports through [@actions/core]. *)
Inductive Event :=
| Info (msg : string)
| Warning (msg : string)
| Error (msg : string)
| SetOutput (key value : string)
| SetFailed (msg : string).

(** The collaborators of the action: processes ([exec], [getExecOutput]),
    files, the GitHub API, the input schema, and the library functions
    [JSON.parse], [new URL] and ejs's [render].  Each is a function of the
    world and may throw. *)
Record Runtime (World : Type) := {
  exec : string -> list string -> option string -> World -> Result Z * World;
  getExecOutput : string -> list string -> World -> Result (Z * string) * World;
  readFile : string -> World -> Result string * World;
  getInputs : World -> Result Inputs * World;
  get_default_branch : string -> World -> Result string * World;
  create_pull : string -> PullRequest -> World -> Result string * World;
  (** [JSON.parse(stdout)?.workspace_members], typed as in the source *)
  workspace_members : string -> Result (list string);
  (** [new URL(url)] *)
  URL : string -> Result URLParts;
  (** ejs's [render] *)
  ejs_render : string -> TemplateVars -> Result string;
  (** [__dirname] *)
  dirname : string
}.

Section Monad.

Variable World : Type.

Record State := { world : World; log : list Event }.

Definition M (A : Type) : Type := State -> Result A * State.

Definition ret {A} (a : A) : M A := fun s => (Ok a, s).

Definition throw {A} (e : Thrown) : M A := fun s => (Throw e, s).

Definition bind {A B} (m : M A) (k : A -> M B) : M B :=
  fun s =>
    match m s with
    | (Ok a, s') => k a s'
    | (Throw e, s') => (Throw e, s')
    end.

(** [try { m } catch (err) { handler(err) }] *)
Definition try_catch {A} (m : M A) (handler : Thrown -> M A) : M A :=
  fun s =>
    match m s with
    | (Ok a, s') => (Ok a, s')
    | (Throw e, s') => handler e s'
    end.

Definition emit (e : Event) : M unit :=
  fun s => (Ok tt, {| world := world s; log := (log s ++ [e])%list |}).

(** A call into the world. *)
Definition call {A} (f : World -> Result A * World) : M A :=
  fun s =>
    let (r, w) := f (world s) in
    (r, {| world := w; log := log s |}).

(** A library call that may throw and touches nothing. *)
Definition pure {A} (r : Result A) : M A := fun s => (r, s).

End Monad.

Arguments ret {World A} a.
Arguments throw {World A} e.
Arguments bind {World A B} m k.
Arguments try_catch {World A} m handler.
Arguments emit {World} e.
Arguments call {World A} f.
Arguments pure {World A} r.
Arguments world {World} s.
Arguments log {World} s.

Declare Scope action_scope.
Delimit Scope action_scope with action.
Notation "x <- m ;; k" := (bind m (fun x => k))
  (at level 100, m at next level, right associativity) : action_scope.
Notation "m ;;; k" := (bind m (fun _ => k))
  (at level 100, right associativity) : action_scope.
Open Scope action_scope.

(** [`${n}`] for an integer. *)
Definition show_Z (n : Z) : string :=
  DecimalString.NilZero.string_of_int (Z.to_int n).

(** ** The action *)

(** The regular expression of [parseWorkspacePkg],
    [/^(\S+) (\S+) \(path\+(file:[/]{2}.+)\)$/]: the three groups of the
    match, or [None].  [\S+] stops at the first white-space character,
    which must then be the space of the pattern; the greedy [.+] runs up
    to the closing parenthesis that ends the input. *)
Definition member_regex (pkg : string) : option (string * string * string) :=
  let nonspace c := negb (Str.is_space c) in
  let (name, after_name) := Str.span nonspace pkg in
  if negb (Str.nonempty name) then None else
  match Str.strip_prefix " " after_name with
  | None => None
  | Some r =>
      let (version, after_version) := Str.span nonspace r in
      if negb (Str.nonempty version) then None else
      match Str.strip_prefix " (path+" after_version with
      | None => None
      | Some r =>
          match Str.strip_last ")" r with
          | None => None
          | Some url =>
              match Str.strip_prefix "file://" url with
              | None => None
              | Some rest =>
                  if Str.nonempty rest
                     && Str.forallb (fun c => negb (Str.is_line_terminator c)) rest
                  then Some (name, version, url)
                  else None
              end
          end
      end
  end.

Section Action.

Variable World : Type.
Variable rt : Runtime World.

Local Abbreviation M := (M World).

Definition info (msg : string) : M unit := emit (Info msg).
Definition warning (msg : string) : M unit := emit (Warning msg).
Definition _error (msg : string) : M unit := emit (Error msg).
Definition setOutput (key value : string) : M unit := emit (SetOutput key value).
Definition setFailed (msg : string) : M unit := emit (SetFailed msg).

Definition execAndSucceed (program : string) (args : list string)
           (cwd : option string) : M unit :=
  exit <- call (exec rt program args cwd) ;;
  if Z.eqb exit 0 then ret tt
  else throw (JsError (program ++ " exited with code " ++ show_Z exit)).

Definition toolExists (name : string) : M bool :=
  try_catch
    (code <- call (exec rt name ["--help"] None) ;;
     ret (Z.eqb code 0))
    (fun _ => ret false).

Definition execWithOutput (program : string) (args : list string) : M string :=
  out <- call (getExecOutput rt program args) ;;
  let (exitCode, stdout) := (out : Z * string) in
  if Z.eqb exitCode 0 then ret stdout
  else throw (JsError (program ++ " exited with code " ++ show_Z exitCode)).

Definition setGithubUser (git : GitInputs) : M unit :=
  info ("Setting git user details: " ++ git_name git
        ++ " <" ++ git_email git ++ ">") ;;;
  execAndSucceed "git" ["config"; "user.name"; git_name git] None ;;;
  execAndSucceed "git" ["config"; "user.email"; git_email git] None.

Definition getDefaultBranch (token : string) : M string :=
  call (get_default_branch rt token).

Definition makeBranch (version : string) (git : GitInputs) : M string :=
  let branchName :=
    Str.join (git_branchSeparator git) [git_branchPrefix git; version] in
  info ("Creating branch " ++ branchName) ;;;
  execAndSucceed "git" ["switch"; "-c"; branchName] None ;;;
  setOutput "pr-branch" branchName ;;;
  ret branchName.

Definition parseWorkspacePkg (pkg : string) : M (option CrateDetails.t) :=
  match member_regex pkg with
  | None =>
      warning ("could not parse package format: " ++ Str.dquote ++ pkg
                 ++ Str.dquote ++ ", skipping") ;;;
      ret None
  | Some (name, version, url) =>
      u <- pure (URL rt url) ;;
      if negb (protocol u =? "file:")
      then throw (JsError "pkgid is returning a non-local crate")
      else
        let path := Path.normalize (pathname u) in
        ret (Some (CrateDetails.make name path version))
  end.

(** The condition under which the loop of [pkgid] returns [parsed]. *)
Definition hint_matches (crate : CrateArgs.t) (parsed : CrateDetails.t) : bool :=
  match CrateArgs.name crate with
  | Some n => Str.nonempty n && (n =? CrateDetails.name parsed)
  | None => false
  end
  ||
  match CrateArgs.path crate with
  | Some p => Str.nonempty p && (p =? CrateDetails.path parsed)
  | None => false
  end.

(** The [for (const pkg of pkgs)] loop of [pkgid]; falling out of it
    reaches the final [throw]. *)
Fixpoint pkgid_loop (crate : CrateArgs.t) (pkgs : list string)
  : M CrateDetails.t :=
  match pkgs with
  | [] => throw (JsError "no matching crate found")
  | pkg :: rest =>
      parsed <- parseWorkspacePkg pkg ;;
      match parsed with
      | None => pkgid_loop crate rest
      | Some parsed =>
          if hint_matches crate parsed then ret parsed
          else pkgid_loop crate rest
      end
  end.

Definition pkgid (crate : CrateArgs.t) : M CrateDetails.t :=
  (* [crate.path && normalize(crate.path)]: the source computes it, writes
     it to the debug log, and does not use it again *)
  let cratePath :=
    if truthy (CrateArgs.path crate)
    then option_map Path.normalize (CrateArgs.path crate)
    else CrateArgs.path crate in
  stdout <- execWithOutput "cargo" ["metadata"; "--format-version=1"] ;;
  pkgs <- pure (workspace_members rt stdout) ;;
  if truthy (CrateArgs.name crate) || truthy (CrateArgs.path crate) then
    pkgid_loop crate pkgs
  else
    match pkgs with
    | [pkg] =>
        info "only one crate in workspace, assuming that is it" ;;;
        parsed <- parseWorkspacePkg pkg ;;
        match parsed with
        | None => throw (JsError "no good crate found")
        | Some parsed => ret parsed
        end
    | _ => throw (JsError "no matching crate found")
    end.

Definition findCrate (crate : CrateArgs.t) : M CrateDetails.t :=
  let name := CrateArgs.name crate in
  let path := CrateArgs.path crate in
  if negb (truthy name) && negb (truthy path) then
    try_catch (pkgid CrateArgs.none)
      (fun err =>
         _error "No crate found at the root, try specifying crate-name or crate-path." ;;;
         throw err)
  else if truthy name && negb (truthy path) then
    pkgid (CrateArgs.make name None)
  else if negb (truthy name) && truthy path then
    pkgid (CrateArgs.make None path)
  else
    try_catch (pkgid (CrateArgs.make name path))
      (fun err =>
         _error "crate-name and crate-path conflict; prefer only specifying one or fix the mismatch." ;;;
         throw err).

(** The availability check and the invocation of the versioning tool:
    [runCargoRelease] up to the re-resolution of the crate. *)
Definition cargoRelease_invoke (crate : CrateDetails.t) (version branchName : string)
  : M unit :=
  present <- toolExists "cargo-release" ;;
  (if negb present then
     warning "cargo-release is not available, attempting to install it" ;;;
     binstall <- toolExists "cargo-binstall" ;;
     if binstall then
       info "trying to install cargo-release with cargo-binstall" ;;;
       execAndSucceed "cargo" ["binstall"; "cargo-release"] None
     else
       info "trying to install cargo-release with cargo-install" ;;;
       execAndSucceed "cargo" ["install"; "cargo-release"] None
   else ret tt) ;;;
  execAndSucceed "cargo"
    ["release"; "--execute"; "--no-push"; "--no-tag"; "--no-publish";
     "--no-confirm"; "--verbose"; "--allow-branch"; branchName;
     "--dependent-version"; "upgrade"; version]
    (Some (CrateDetails.path crate)).

Definition runCargoRelease (crate : CrateDetails.t) (version branchName : string)
  : M string :=
  cargoRelease_invoke crate version branchName ;;;
  found <- pkgid (CrateDetails.as_args crate) ;;
  let newVersion := CrateDetails.version found in
  info ("new version: " ++ newVersion) ;;;
  if newVersion =? CrateDetails.version crate then
    throw (JsError "New and old versions are identical, not proceeding")
  else
    setOutput "version" newVersion ;;;
    ret newVersion.

Definition pushBranch (branchName : string) : M unit :=
  execAndSucceed "git" ["push"; "origin"; branchName] None.

Definition render (template : string) (vars : TemplateVars) : M string :=
  pure (ejs_render rt template vars).

(** [!template?.trim().length] *)
Definition blank (template : option string) : bool :=
  match template with
  | None => true
  | Some t => negb (Str.nonempty (Str.trim t))
  end.

(** The source of the body template: the part of [makePR] between the
    two renderings. *)
Definition bodyTemplate (pr : PrInputs) : M string :=
  template <-
    (if truthy (pr_templateFile pr) then
       match pr_templateFile pr with
       | Some file => t <- call (readFile rt file) ;; ret (Some t)
       | None => ret (pr_template pr)
       end
     else ret (pr_template pr)) ;;
  match template with
  | Some t =>
      if blank template
      then call (readFile rt (Path.join (dirname rt) "default-template.ejs"))
      else ret t
  | None => call (readFile rt (Path.join (dirname rt) "default-template.ejs"))
  end.

Definition makePR (inputs : Inputs) (crate : CrateDetails.t)
           (baseBranch branchName newVersion : string) : M unit :=
  let pr := in_pr inputs in
  let vars :=
    {| vars_pr := pr;
       vars_crate_name := CrateDetails.name crate;
       vars_crate_path := CrateDetails.path crate;
       vars_version_previous := CrateDetails.version crate;
       vars_version_actual := newVersion;
       vars_version_desired := in_version inputs;
       vars_branchName := branchName;
       vars_title := None |} in
  title <- render (pr_title pr) vars ;;
  let vars := set_title vars title in
  template <- bodyTemplate pr ;;
  body <- render template vars ;;
  url <- call (create_pull rt (githubToken inputs)
                 {| pull_title := title;
                    pull_body := body;
                    pull_head := branchName;
                    pull_base := baseBranch;
                    pull_maintainer_can_modify := pr_modifiable pr;
                    pull_draft := pr_draft pr |}) ;;
  info ("PR opened: " ++ url) ;;;
  setOutput "pr-url" url.

(** The [try] block of the entry point. *)
Definition run : M unit :=
  inputs <- call (getInputs rt) ;;
  setGithubUser (in_git inputs) ;;;
  baseBranch <-
    (if truthy (baseBranch inputs)
     then match baseBranch inputs with
          | Some b => ret b
          | None => getDefaultBranch (githubToken inputs)
          end
     else getDefaultBranch (githubToken inputs)) ;;
  branchName <- makeBranch (in_version inputs) (in_git inputs) ;;
  crate <- findCrate (in_crate inputs) ;;
  newVersion <- runCargoRelease crate (in_version inputs) branchName ;;
  pushBranch branchName ;;;
  makePR inputs crate baseBranch branchName newVersion.

(** The entry point: any failure ends in [setFailed]. *)
Definition main : M unit :=
  try_catch run
    (fun error =>
       match error with
       | JsError message => setFailed message
       | JsString s => setFailed s
       | JsOther => setFailed "An unknown error has occurred"
       end).

End Action.

Arguments execAndSucceed {World} rt program args cwd.
Arguments toolExists {World} rt name.
Arguments execWithOutput {World} rt program args.
Arguments setGithubUser {World} rt git.
Arguments getDefaultBranch {World} rt token.
Arguments makeBranch {World} rt version git.
Arguments parseWorkspacePkg {World} rt pkg.
Arguments pkgid_loop {World} rt crate pkgs.
Arguments pkgid {World} rt crate.
Arguments findCrate {World} rt crate.
Arguments cargoRelease_invoke {World} rt crate version branchName.
Arguments runCargoRelease {World} rt crate version branchName.
Arguments pushBranch {World} rt branchName.
Arguments render {World} rt template vars.
Arguments bodyTemplate {World} rt pr.
Arguments makePR {World} rt inputs crate baseBranch branchName newVersion.
Arguments run {World} rt.
Arguments main {World} rt.

(** ** A renderer for the simulated world

    A stand-in for ejs's [render], used only to run the examples: it
    handles templates made of literal text and the two output tags,
    [<%= e %>] (escaped) and [<%- e %>] (raw), where [e] names a template
    variable.  The library itself accepts much more (scriptlets,
    comments, the trimming tags, arbitrary expressions), all refused
    here, and words its errors differently.  The properties of the action
    are stated over the [ejs_render] of an arbitrary runtime, never over
    this function. *)

Module Ejs.

Inductive value :=
| VString (s : string)
| VBool (b : bool)
| VUndefined.

Definition optional (s : option string) : value :=
  match s with Some s => VString s | None => VUndefined end.

(** The value of a variable in the scope [with (vars)]; [None] is a
    [ReferenceError].  [title] is no property of [vars] until it is
    assigned. *)
Definition lookup (vars : TemplateVars) (e : string) : option value :=
  if e =? "pr.title" then Some (VString (pr_title (vars_pr vars)))
  else if e =? "pr.label" then Some (optional (pr_label (vars_pr vars)))
  else if e =? "pr.draft" then Some (VBool (pr_draft (vars_pr vars)))
  else if e =? "pr.modifiable" then Some (VBool (pr_modifiable (vars_pr vars)))
  else if e =? "pr.template" then Some (optional (pr_template (vars_pr vars)))
  else if e =? "pr.templateFile" then Some (optional (pr_templateFile (vars_pr vars)))
  else if e =? "pr.mergeStrategy" then Some (VString (pr_mergeStrategy (vars_pr vars)))
  else if e =? "pr.releaseNotes" then Some (VBool (pr_releaseNotes (vars_pr vars)))
  else if e =? "crate.name" then Some (VString (vars_crate_name vars))
  else if e =? "crate.path" then Some (VString (vars_crate_path vars))
  else if e =? "version.previous" then Some (VString (vars_version_previous vars))
  else if e =? "version.actual" then Some (VString (vars_version_actual vars))
  else if e =? "version.desired" then Some (VString (vars_version_desired vars))
  else if e =? "branchName" then Some (VString (vars_branchName vars))
  else if e =? "title" then option_map VString (vars_title vars)
  else None.

(** What [__append] adds for a value: nothing for [undefined]. *)
Definition show (v : value) : string :=
  match v with
  | VString s => s
  | VBool true => "true"
  | VBool false => "false"
  | VUndefined => ""
  end.

(** [escapeXML] *)
Fixpoint escapeXML (s : string) : string :=
  match s with
  | EmptyString => ""
  | String c r =>
      let n := Str.code c in
      (if Nat.eqb n 38 then "&amp;"
       else if Nat.eqb n 60 then "&lt;"
       else if Nat.eqb n 62 then "&gt;"
       else if Nat.eqb n 34 then "&#34;"
       else if Nat.eqb n 39 then "&#39;"
       else String c "") ++ escapeXML r
  end.

Inductive mode := Text | Escaped | Raw.

Inductive piece :=
| Literal (text : string)
| Output (escaped : bool) (e : string).

Definition close (m : mode) (cur : string) : piece :=
  match m with
  | Text => Literal (Str.rev cur)
  | Escaped => Output true (Str.trim (Str.rev cur))
  | Raw => Output false (Str.trim (Str.rev cur))
  end.

(** The pieces of a template; [cur] is the piece being read, reversed. *)
Fixpoint pieces (s : string) (m : mode) (cur : string) (out : list piece)
  : option (list piece) :=
  match s with
  | EmptyString =>
      match m with
      | Text => Some (List.rev (close m cur :: out))
      | _ => None
      end
  | String c r =>
      match m, r with
      | Text, String c2 r2 =>
          if Ascii.eqb c "<" && Ascii.eqb c2 "%" then
            match r2 with
            | String c3 r3 =>
                if Ascii.eqb c3 "=" then pieces r3 Escaped "" (close m cur :: out)
                else if Ascii.eqb c3 "-" then pieces r3 Raw "" (close m cur :: out)
                else None
            | EmptyString => None
            end
          else if Ascii.eqb c "%" && Ascii.eqb c2 ">" then None
          else pieces r m (String c cur) out
      | _, String c2 r2 =>
          if Ascii.eqb c "%" && Ascii.eqb c2 ">"
          then pieces r2 Text "" (close m cur :: out)
          else pieces r m (String c cur) out
      | _, EmptyString => pieces r m (String c cur) out
      end
  end.

Definition outside : Thrown := JsError "template outside the modelled fragment".

Fixpoint output (vars : TemplateVars) (ps : list piece) : Result string :=
  match ps with
  | [] => Ok ""
  | Literal t :: rest =>
      match output vars rest with
      | Ok o => Ok (t ++ o)
      | Throw e => Throw e
      end
  | Output escaped e :: rest =>
      match lookup vars e with
      | None =>
          if e =? "title" then Throw (JsError "title is not defined")
          else Throw outside
      | Some v =>
          match output vars rest with
          | Ok o => Ok ((if escaped then escapeXML (show v) else show v) ++ o)
          | Throw e => Throw e
          end
      end
  end.

Definition render (template : string) (vars : TemplateVars) : Result string :=
  match pieces template Text "" [] with
  | Some ps => output vars ps
  | None => Throw outside
  end.

End Ejs.

(** ** A simulated world

    A small world to run the action in: a workspace whose members
    [cargo metadata] lists, a [cargo release] that replaces that listing,
    a table of files, and the library functions on the inputs the
    examples use. *)

Module Sim.

Definition quoted (s : string) : string := Str.dquote ++ s ++ Str.dquote.

(** The output of [cargo metadata], as far as the action reads it. *)
Definition metadata_json (members : list string) : string :=
  "{" ++ quoted "workspace_members" ++ ":["
      ++ Str.join "," (map quoted members) ++ "]}".

Inductive json_state :=
| Item      (* a string, or the end of an empty array *)
| Chars (acc : string)  (* inside a string; [acc] is reversed *)
| Next.     (* a comma or the end of the array *)

(** The strings of a JSON array, read from just after its opening
    bracket up to the closing brace of the document.  Strings hold no
    escape; anything else is rejected. *)
Fixpoint json_strings (s : string) (st : json_state) (acc : list string)
  : option (list string) :=
  match s with
  | EmptyString => None
  | String c r =>
      match st with
      | Item =>
          if Ascii.eqb c (ascii_of_nat 34) then json_strings r (Chars "") acc
          else match acc with
               | [] => if (s =? "]}") then Some [] else None
               | _ => None
               end
      | Chars a =>
          if Ascii.eqb c (ascii_of_nat 34) then json_strings r Next (Str.rev a :: acc)
          else if Ascii.eqb c (ascii_of_nat 92) || Nat.ltb (Str.code c) 32 then None
          else json_strings r (Chars (String c a)) acc
      | Next =>
          if Ascii.eqb c "," then json_strings r Item acc
          else if s =? "]}" then Some (List.rev acc)
          else None
      end
  end.

(** [JSON.parse(stdout)?.workspace_members] on what [metadata_json]
    writes. *)
Definition workspace_members (stdout : string) : Result (list string) :=
  match Str.strip_prefix ("{" ++ quoted "workspace_members" ++ ":[") stdout with
  | Some r =>
      match json_strings r Item [] with
      | Some l => Ok l
      | None => Throw (JsError "Unexpected token in JSON")
      end
  | None => Throw (JsError "Unexpected token in JSON")
  end.

Definition is_alnum (c : ascii) : bool :=
  let n := Str.code c in
  (Nat.leb 48 n && Nat.leb n 57) || (Nat.leb 65 n && Nat.leb n 90)
  || (Nat.leb 97 n && Nat.leb n 122).

Definition is_plain (c : ascii) : bool :=
  is_alnum c || Ascii.eqb c "/" || Ascii.eqb c "-" || Ascii.eqb c "_" || Ascii.eqb c ".".

Definition dot_segment (seg : string) : bool := (seg =? ".") || (seg =? "..").

(** [new URL(url)] on [file://] followed by an absolute path made of
    letters, digits, [-], [_], [.] and [/] with no [.] or [..] segment:
    there the path is the pathname as it stands.  The examples use no
    other URL, and any other is refused. *)
Definition URL (url : string) : Result URLParts :=
  match Str.strip_prefix "file://" url with
  | Some (String "/" _ as p) =>
      if Str.forallb is_plain p && negb (existsb dot_segment (Str.split "/" p))
      then Ok {| protocol := "file:"; pathname := p |}
      else Throw (JsError "Invalid URL")
  | _ => Throw (JsError "Invalid URL")
  end.

Record World := {
  members : list string;     (* what cargo metadata lists now *)
  released : list string;    (* what it lists once cargo release has run *)
  tools : list string;       (* the programs that answer --help *)
  files : list (string * string);
  given : Inputs;            (* what the input schema yields *)
  processes : list (string * list string * option string);
  pulls : list PullRequest
}.

Definition ran (p : string * list string * option string) (w : World) : World :=
  {| members := members w; released := released w; tools := tools w;
     files := files w; given := given w;
     processes := (processes w ++ [p])%list; pulls := pulls w |}.

Definition release (w : World) : World :=
  {| members := released w; released := released w; tools := tools w;
     files := files w; given := given w;
     processes := processes w; pulls := pulls w |}.

Definition install (tool : string) (w : World) : World :=
  {| members := members w; released := released w; tools := tool :: tools w;
     files := files w; given := given w;
     processes := processes w; pulls := pulls w |}.

Definition opened (p : PullRequest) (w : World) : World :=
  {| members := members w; released := released w; tools := tools w;
     files := files w; given := given w;
     processes := processes w; pulls := (pulls w ++ [p])%list |}.

Definition has (l : list string) (x : string) : bool := existsb (String.eqb x) l.

(** Processes: a probe succeeds for the tools at hand and cannot be
    spawned otherwise; installing [cargo-release] puts it at hand;
    [cargo release] bumps the workspace; everything exits with code 0. *)
Definition exec (program : string) (args : list string) (cwd : option string)
           (w : World) : Result Z * World :=
  let w := ran (program, args, cwd) w in
  match args with
  | ["--help"] =>
      if has (tools w) program then (Ok 0%Z, w)
      else (Throw (JsError ("Unable to locate executable file: " ++ program)), w)
  | sub :: _ =>
      if (program =? "cargo") && (sub =? "release") then (Ok 0%Z, release w)
      else if (program =? "cargo") && ((sub =? "binstall") || (sub =? "install"))
      then (Ok 0%Z, install "cargo-release" w)
      else (Ok 0%Z, w)
  | [] => (Ok 0%Z, w)
  end.

Definition getExecOutput (program : string) (args : list string) (w : World)
  : Result (Z * string) * World :=
  let w := ran (program, args, None) w in
  if (program =? "cargo") && has args "metadata"
  then (Ok (0%Z, metadata_json (members w)), w)
  else (Ok (0%Z, ""), w).

Fixpoint lookup_file (l : list (string * string)) (path : string) : option string :=
  match l with
  | [] => None
  | (p, contents) :: rest => if p =? path then Some contents else lookup_file rest path
  end.

Definition readFile (path : string) (w : World) : Result string * World :=
  match lookup_file (files w) path with
  | Some contents => (Ok contents, w)
  | None => (Throw (JsError ("ENOENT: no such file or directory, open " ++ path)), w)
  end.

Definition pull_url : string := "https://api.github.com/repos/o/r/pulls/1".

Definition rt : Runtime World :=
  Build_Runtime
    exec getExecOutput readFile
    (fun w => (Ok (given w), w))
    (fun _ w => (Ok "main", w))
    (fun _ p w => (Ok pull_url, opened p w))
    workspace_members URL Ejs.render
    "/action/dist".

Definition default_title : string :=
  "release: <%= crate.name %> v<%= version.actual %>".

Definition default_template : string := "<%- title %>".

Definition pr_inputs (template templateFile : option string) : PrInputs :=
  {| pr_title := default_title; pr_label := None; pr_draft := false;
     pr_modifiable := true; pr_template := template;
     pr_templateFile := templateFile; pr_mergeStrategy := "squash";
     pr_releaseNotes := false |}.

Definition inputs (version : string) (crate : CrateArgs.t) (pr : PrInputs) : Inputs :=
  {| githubToken := "token"; baseBranch := None; in_version := version;
     in_git := {| git_name := "github-actions";
                  git_email := "github-actions@github.com";
                  git_branchPrefix := "release";
                  git_branchSeparator := "/" |};
     in_crate := crate; in_pr := pr |}.

(** A workspace listing [before], which [cargo release] turns into
    [after]; [cargo-release] is installed and the default template is in
    place. *)
Definition workspace (before after : list string) (i : Inputs)
           (more_files : list (string * string)) : World :=
  {| members := before; released := after; tools := ["cargo-release"];
     files := ("/action/dist/default-template.ejs", default_template) :: more_files;
     given := i; processes := []; pulls := [] |}.

Definition start (w : World) : State World := {| world := w; log := [] |}.

(** The directory [dir] holds a manifest. *)
Definition has_manifest (w : World) (dir : string) : bool :=
  match lookup_file (files w) (Path.join dir "Cargo.toml") with
  | Some _ => true
  | None => false
  end.

(** No file lies at or under [dir]. *)
Definition nothing_at (w : World) (dir : string) : bool :=
  forallb (fun f => match Str.strip_prefix dir (fst f) with
                    | Some _ => false
                    | None => true
                    end) (files w).

Definition member_a : string := "a 1.0.0 (path+file:///ws/a)".
Definition member_b : string := "b 2.0.0 (path+file:///ws/b)".
Definition member_b_bumped : string := "b 2.0.1 (path+file:///ws/b)".

Definition crate_a : CrateDetails.t := CrateDetails.make "a" "/ws/a" "1.0.0".
Definition crate_b : CrateDetails.t := CrateDetails.make "b" "/ws/b" "2.0.0".

Definition by_name (n : string) : CrateArgs.t := CrateArgs.make (Some n) None.
Definition by_path (p : string) : CrateArgs.t := CrateArgs.make None (Some p).

(** A workspace that is not released: the listing stays as it is. *)
Definition listing (pkgs : list string) : World :=
  workspace pkgs pkgs (inputs "patch" CrateArgs.none (pr_inputs None None)) [].

(** The state [cargo metadata] leaves when run in [s]. *)
Definition queried (s : State World) : State World :=
  {| world := ran ("cargo", ["metadata"; "--format-version=1"], None) (world s);
     log := log s |}.

End Sim.

(** ** Worlds for the examples *)

Definition only_malformed : list string := ["a 1.0.0"].

Definition garbled : string := "b 2.0.0 (/ws/b)".

Definition nowhere : list string := ["foo 1.0.0 (path+file:///nowhere)"].

Definition redundant_path : string := "/ws/./b/../b".

Definition remote_member : string := "foo 1.0.0 (path+https://example.com/foo)".

(** A member of the right grammar whose URL has a space in its host. *)
Definition unparsable_url : string := "x 1.0.0 (path+file://a b/x)".

(** A workspace in which [cargo release] bumps [b] to 2.0.1, and one in
    which it changes nothing. *)
Definition bumping : Sim.World :=
  Sim.workspace [Sim.member_a; Sim.member_b] [Sim.member_a; Sim.member_b_bumped]
                (Sim.inputs "patch" (Sim.by_name "b") (Sim.pr_inputs None None)) [].

Definition idle : Sim.World := Sim.listing [Sim.member_a; Sim.member_b].

Definition blank_file : Sim.World :=
  Sim.workspace [Sim.member_a] [Sim.member_a]
                (Sim.inputs "patch" CrateArgs.none
                            (Sim.pr_inputs None (Some "/repo/pr.ejs")))
                [("/repo/pr.ejs", "  ")].

Definition with_file : Sim.World :=
  Sim.workspace [Sim.member_a] [Sim.member_a]
                (Sim.inputs "patch" CrateArgs.none
                            (Sim.pr_inputs (Some "inline") (Some "/repo/pr.ejs")))
                [("/repo/pr.ejs", "Release <%= version.actual %>")].

Definition crate_foo : CrateDetails.t := CrateDetails.make "foo" "/ws/foo" "1.2.2".

Definition foo_inputs : Inputs :=
  Sim.inputs "patch" (Sim.by_name "foo") (Sim.pr_inputs None None).

Definition foo_world : Sim.World :=
  Sim.workspace ["foo 1.2.3 (path+file:///ws/foo)"] ["foo 1.2.3 (path+file:///ws/foo)"]
                foo_inputs [].

(** A machine with neither [cargo-release] nor [cargo-binstall]. *)
Definition bare : Sim.World :=
  {| Sim.members := [Sim.member_a; Sim.member_b];
     Sim.released := [Sim.member_a; Sim.member_b_bumped];
     Sim.tools := [];
     Sim.files := [];
     Sim.given := Sim.inputs "patch" (Sim.by_name "b") (Sim.pr_inputs None None);
     Sim.processes := [];
     Sim.pulls := [] |}.

(** Inputs that name a template file which is not there. *)
Definition missing_file : Sim.World :=
  Sim.workspace [Sim.member_a] [Sim.member_a]
                (Sim.inputs "patch" CrateArgs.none
                            (Sim.pr_inputs (Some "inline") (Some "/repo/missing.ejs")))
                [].

(** Hints that no member of the examples matches. *)
Definition no_such_crate : CrateArgs.t := CrateArgs.make (Some "zzz") (Some "/nope").

(** Inputs with the default title template and an inline body template
    that outputs [title]. *)
Definition inline_inputs : Inputs :=
  Sim.inputs "patch" (Sim.by_name "foo") (Sim.pr_inputs (Some "<%- title %>") None).

Definition inline_world : Sim.World :=
  Sim.workspace ["foo 1.2.3 (path+file:///ws/foo)"] ["foo 1.2.3 (path+file:///ws/foo)"]
                inline_inputs [].

(** What an installer without a network ends with. *)
Definition no_network : Thrown :=
  JsError "The process '/usr/bin/cargo' failed with exit code 101".

(** The simulated runtime, but with installers that cannot run to a
    successful end. *)
Definition offline : Runtime Sim.World :=
  Build_Runtime
    (fun program args cwd w =>
       if (program =? "cargo")
          && ((hd "" args =? "install") || (hd "" args =? "binstall"))
       then (Throw no_network, Sim.ran (program, args, cwd) w)
       else Sim.exec program args cwd w)
    Sim.getExecOutput Sim.readFile
    (getInputs Sim.rt) (get_default_branch Sim.rt) (create_pull Sim.rt)
    Sim.workspace_members Sim.URL Ejs.render
    "/action/dist".

(** * Properties *)

Section Properties.

Variable World : Type.
Variable rt : Runtime World.

(** ** Vocabulary *)

(** [pkg] has the grammar of a member and yields [d]. *)
Definition well_formed (pkg : string) (d : CrateDetails.t) : Prop :=
  exists url u,
    member_regex pkg = Some (CrateDetails.name d, CrateDetails.version d, url)
    /\ URL rt url = Ok u
    /\ protocol u = "file:"
    /\ CrateDetails.path d = Path.normalize (pathname u).

Definition malformed (pkg : string) : Prop := member_regex pkg = None.

(** The state after one more event. *)
Definition logged (s : State World) (e : Event) : State World :=
  {| world := world s; log := (log s ++ [e])%list |}.

Definition skip_warning (pkg : string) : Event :=
  Warning ("could not parse package format: " ++ Str.dquote ++ pkg
           ++ Str.dquote ++ ", skipping").

(** A member is passed over by the loop when it is malformed, or well
    formed but matched by neither hint. *)
Definition passed_over (crate : CrateArgs.t) (pkg : string) : Prop :=
  malformed pkg
  \/ exists d, well_formed pkg d /\ hint_matches crate d = false.

(** In state [s], [cargo metadata] exits with code zero and its output
    lists the members [pkgs]; [s1] is the state it leaves. *)
Definition lists (s : State World) (pkgs : list string) (s1 : State World) : Prop :=
  exists stdout w,
    getExecOutput rt "cargo" ["metadata"; "--format-version=1"] (world s)
      = (Ok (0%Z, stdout), w)
    /\ workspace_members rt stdout = Ok pkgs
    /\ s1 = {| world := w; log := log s |}.

(** What [pkgid] does once it has the listing. *)
Definition select (crate : CrateArgs.t) (pkgs : list string) : M World CrateDetails.t :=
  if truthy (CrateArgs.name crate) || truthy (CrateArgs.path crate) then
    pkgid_loop rt crate pkgs
  else
    match pkgs with
    | [pkg] =>
        info "only one crate in workspace, assuming that is it" ;;;
        parsed <- parseWorkspacePkg rt pkg ;;
        match parsed with
        | None => throw (JsError "no good crate found")
        | Some parsed => ret parsed
        end
    | _ => throw (JsError "no matching crate found")
    end.

(** The arguments [runCargoRelease] passes to [cargo]. *)
Definition release_args (version branchName : string) : list string :=
  ["release"; "--execute"; "--no-push"; "--no-tag"; "--no-publish";
   "--no-confirm"; "--verbose"; "--allow-branch"; branchName;
   "--dependent-version"; "upgrade"; version].

Definition default_template_file : string :=
  Path.join (dirname rt) "default-template.ejs".

(** The variables [makePR] assembles before it renders the title. *)
Definition initial_vars (inputs : Inputs) (crate : CrateDetails.t)
           (branchName newVersion : string) : TemplateVars :=
  {| vars_pr := in_pr inputs;
     vars_crate_name := CrateDetails.name crate;
     vars_crate_path := CrateDetails.path crate;
     vars_version_previous := CrateDetails.version crate;
     vars_version_actual := newVersion;
     vars_version_desired := in_version inputs;
     vars_branchName := branchName;
     vars_title := None |}.

(** What [makePR] does with the rendered title. *)
Definition open_with_title (inputs : Inputs) (vars : TemplateVars)
           (baseBranch branchName title : string) : M World unit :=
  template <- bodyTemplate rt (in_pr inputs) ;;
  body <- render rt template (set_title vars title) ;;
  url <- call (create_pull rt (githubToken inputs)
                 {| pull_title := title;
                    pull_body := body;
                    pull_head := branchName;
                    pull_base := baseBranch;
                    pull_maintainer_can_modify := pr_modifiable (in_pr inputs);
                    pull_draft := pr_draft (in_pr inputs) |}) ;;
  info ("PR opened: " ++ url) ;;;
  setOutput "pr-url" url.



(** A process that ran and exited with code zero. *)
Definition exited_zero (r : Result Z) : bool :=
  match r with
  | Ok code => Z.eqb code 0
  | Throw _ => false
  end.

(** What the top-level [catch] passes to [setFailed]. *)
Definition failure_message (e : Thrown) : string :=
  match e with
  | JsError message => message
  | JsString s => s
  | JsOther => "An unknown error has occurred"
  end.

(** The hints [findCrate] passes on: a falsy one is dropped. *)
Definition effective_hints (crate : CrateArgs.t) : CrateArgs.t :=
  CrateArgs.make
    (if truthy (CrateArgs.name crate) then CrateArgs.name crate else None)
    (if truthy (CrateArgs.path crate) then CrateArgs.path crate else None).

(** What [findCrate] reports, if anything, when resolution fails. *)
Definition complaint (crate : CrateArgs.t) : option string :=
  match truthy (CrateArgs.name crate), truthy (CrateArgs.path crate) with
  | false, false =>
      Some "No crate found at the root, try specifying crate-name or crate-path."
  | true, true =>
      Some "crate-name and crate-path conflict; prefer only specifying one or fix the mismatch."
  | _, _ => None
  end.

(** The events [pkgid] may add to the log. *)
Definition resolver_event (e : Event) : Prop :=
  e = Info "only one crate in workspace, assuming that is it"
  \/ exists pkg, malformed pkg /\ e = skip_warning pkg.

(** A member the regular expression rejects, as a test. *)
Definition is_malformed (pkg : string) : bool :=
  match member_regex pkg with
  | None => true
  | Some _ => false
  end.

(** One warning for each malformed member of [pkgs], in their order. *)
Definition skip_warnings (pkgs : list string) : list Event :=
  map skip_warning (filter is_malformed pkgs).

(** ** Reading the members of a workspace *)

Lemma parse_malformed pkg s :
  malformed pkg ->
  parseWorkspacePkg rt pkg s = (Ok None, logged s (skip_warning pkg)).
Proof.
  unfold malformed, parseWorkspacePkg. intros ->. reflexivity.
Qed.

Lemma parse_well_formed pkg d s :
  well_formed pkg d ->
  parseWorkspacePkg rt pkg s = (Ok (Some d), s).
Proof.
  intros (url & u & Hre & Hu & Hp & Hpath).
  unfold parseWorkspacePkg. rewrite Hre.
  unfold bind, pure. rewrite Hu, Hp. simpl.
  unfold ret. destruct d as [n p v]; simpl in *. now subst p.
Qed.

(** Whatever [parseWorkspacePkg] returns, it is one of the two above. *)
Lemma parse_inv pkg s r s' :
  parseWorkspacePkg rt pkg s = (Ok r, s') ->
  match r with
  | None => malformed pkg /\ s' = logged s (skip_warning pkg)
  | Some d => well_formed pkg d /\ s' = s
  end.
Proof.
  unfold parseWorkspacePkg, malformed, well_formed.
  destruct (member_regex pkg) as [[[n v] url]|] eqn:Hre.
  - unfold bind, pure. destruct (URL rt url) as [u|e] eqn:Hu; [|discriminate].
    destruct (protocol u =? "file:") eqn:Hp; simpl; [|discriminate].
    unfold ret. intros [= <- <-]. split; [|reflexivity].
    exists url, u. simpl. apply String.eqb_eq in Hp. auto.
  - intros [= <- <-]. auto.
Qed.

(** The value of [parseWorkspacePkg] does not depend on the state. *)
Lemma parse_value pkg s1 s2 :
  fst (parseWorkspacePkg rt pkg s1) = fst (parseWorkspacePkg rt pkg s2).
Proof.
  unfold parseWorkspacePkg.
  destruct (member_regex pkg) as [[[n v] url]|]; [|reflexivity].
  unfold bind, pure. destruct (URL rt url) as [u|e]; [|reflexivity].
  destruct (negb (protocol u =? "file:")); reflexivity.
Qed.

Lemma loop_value crate pkgs : forall s1 s2,
  fst (pkgid_loop rt crate pkgs s1) = fst (pkgid_loop rt crate pkgs s2).
Proof.
  induction pkgs as [|pkg rest IH]; intros s1 s2; [reflexivity|].
  simpl. unfold bind.
  pose proof (parse_value pkg s1 s2) as Hv.
  destruct (parseWorkspacePkg rt pkg s1) as [[[d1|]|e1] t1],
           (parseWorkspacePkg rt pkg s2) as [[[d2|]|e2] t2];
    simpl in Hv; try discriminate; try (injection Hv as ->).
  - destruct (hint_matches crate d2); [reflexivity|apply IH].
  - apply IH.
  - reflexivity.
Qed.

Lemma loop_passed_over crate pkg rest s :
  passed_over crate pkg ->
  fst (pkgid_loop rt crate (pkg :: rest) s) = fst (pkgid_loop rt crate rest s).
Proof.
  intros [Hm | (d & Hw & Hno)]; simpl; unfold bind.
  - rewrite (parse_malformed s Hm). apply loop_value.
  - rewrite (parse_well_formed s Hw), Hno. reflexivity.
Qed.

Lemma loop_first_match crate before pkg after d : forall s,
  Forall (passed_over crate) before ->
  well_formed pkg d ->
  hint_matches crate d = true ->
  fst (pkgid_loop rt crate (before ++ pkg :: after)%list s) = Ok d.
Proof.
  induction before as [|m before IH]; intros s Hb Hw Hm.
  - simpl. unfold bind. rewrite (parse_well_formed s Hw), Hm. reflexivity.
  - inversion Hb; subst. simpl app.
    rewrite loop_passed_over by assumption. now apply IH.
Qed.

Lemma loop_inv crate pkgs : forall s d s',
  pkgid_loop rt crate pkgs s = (Ok d, s') ->
  exists before pkg after,
    pkgs = (before ++ pkg :: after)%list
    /\ Forall (passed_over crate) before
    /\ well_formed pkg d
    /\ hint_matches crate d = true.
Proof.
  induction pkgs as [|m rest IH]; intros s d s' H; [discriminate|].
  simpl in H. unfold bind in H.
  destruct (parseWorkspacePkg rt m s) as [[r|e] t] eqn:Hp; [|discriminate].
  apply parse_inv in Hp. destruct r as [d0|].
  - destruct Hp as [Hw ->].
    destruct (hint_matches crate d0) eqn:Hm.
    + injection H as <- <-. exists [], m, rest. auto.
    + apply IH in H as (before & pkg & after & -> & Hb & Hw' & Hm').
      exists (m :: before), pkg, after. repeat split; auto.
      constructor; [right; eauto | assumption].
  - destruct Hp as [Hmal ->].
    apply IH in H as (before & pkg & after & -> & Hb & Hw' & Hm').
    exists (m :: before), pkg, after. repeat split; auto.
    constructor; [left; assumption | assumption].
Qed.

(** ** The metadata query *)

Lemma pkgid_lists crate s pkgs s1 :
  lists s pkgs s1 -> pkgid rt crate s = select crate pkgs s1.
Proof.
  intros (stdout & w & Hout & Hmem & ->).
  unfold pkgid, select, execWithOutput, bind, call, pure.
  rewrite Hout. simpl. unfold ret. rewrite Hmem. reflexivity.
Qed.

Lemma pkgid_inv crate s d s' :
  pkgid rt crate s = (Ok d, s') ->
  exists pkgs s1, lists s pkgs s1 /\ select crate pkgs s1 = (Ok d, s').
Proof.
  unfold pkgid, execWithOutput, bind, call, pure. intros H.
  destruct (getExecOutput rt "cargo" ["metadata"; "--format-version=1"] (world s))
    as [[[code stdout]|e] w] eqn:Hout; [|discriminate].
  destruct (Z.eqb code 0) eqn:Hc; [|discriminate].
  apply Z.eqb_eq in Hc. subst code. unfold ret in H.
  destruct (workspace_members rt stdout) as [pkgs|e] eqn:Hmem; [|discriminate].
  exists pkgs, {| world := w; log := log s |}. split; [|exact H].
  exists stdout, w. auto.
Qed.

(** ** Resolution *)

Lemma member_regex_nonempty pkg n v url :
  member_regex pkg = Some (n, v, url) ->
  Str.nonempty n = true /\ Str.nonempty v = true.
Proof.
  unfold member_regex.
  destruct (Str.span _ pkg) as [n0 r0].
  destruct (Str.nonempty n0) eqn:Hn; cbn [negb]; [|discriminate].
  destruct (Str.strip_prefix " " r0) as [r1|]; [|discriminate].
  destruct (Str.span _ r1) as [v0 r2].
  destruct (Str.nonempty v0) eqn:Hv; cbn [negb]; [|discriminate].
  destruct (Str.strip_prefix " (path+" r2) as [r3|]; [|discriminate].
  destruct (Str.strip_last ")" r3) as [u0|]; [|discriminate].
  destruct (Str.strip_prefix "file://" u0) as [r4|]; [|discriminate].
  destruct (_ && _); [|discriminate].
  intros [= <- <- <-]. auto.
Qed.

Lemma strip_prefix_spec p : forall s r,
  Str.strip_prefix p s = Some r -> s = p ++ r.
Proof.
  induction p as [|a p IH]; intros s r H; simpl in H.
  - now injection H as ->.
  - destruct s as [|b s]; [discriminate|].
    destruct (Ascii.eqb a b) eqn:Hab; [|discriminate].
    apply Ascii.eqb_eq in Hab. subst b. simpl. f_equal. now apply IH.
Qed.

(** The URL the regular expression captures starts with [file://]. *)
Lemma member_regex_file_url pkg n v url :
  member_regex pkg = Some (n, v, url) ->
  exists rest, url = "file://" ++ rest.
Proof.
  unfold member_regex.
  destruct (Str.span _ pkg) as [n0 r0].
  destruct (Str.nonempty n0); cbn [negb]; [|discriminate].
  destruct (Str.strip_prefix " " r0) as [r1|]; [|discriminate].
  destruct (Str.span _ r1) as [v0 r2].
  destruct (Str.nonempty v0); cbn [negb]; [|discriminate].
  destruct (Str.strip_prefix " (path+" r2) as [r3|]; [|discriminate].
  destruct (Str.strip_last ")" r3) as [u0|]; [|discriminate].
  destruct (Str.strip_prefix "file://" u0) as [r4|] eqn:Hfile; [|discriminate].
  destruct (_ && _); [|discriminate].
  intros [= _ _ <-]. exists r4. now apply strip_prefix_spec.
Qed.

(** When [new URL] reports the protocol of a [file://] URL as [file:],
    the only failure of [parseWorkspacePkg] is a failure of [new URL]
    itself: its own [throw] is out of reach. *)
Lemma non_local_check_unreachable :
  (forall rest u, URL rt ("file://" ++ rest) = Ok u -> protocol u = "file:") ->
  forall pkg s e s',
    parseWorkspacePkg rt pkg s = (Throw e, s') ->
    exists n v url, member_regex pkg = Some (n, v, url) /\ URL rt url = Throw e.
Proof.
  intros Hfile pkg s e s'. unfold parseWorkspacePkg.
  destruct (member_regex pkg) as [[[n v] url]|] eqn:Hre; [|discriminate].
  unfold bind, pure.
  destruct (URL rt url) as [u|e0] eqn:Hu.
  - destruct (member_regex_file_url _ Hre) as (rest & ->).
    rewrite (Hfile _ _ Hu). discriminate.
  - intros [= <- _]. eauto.
Qed.

Lemma hint_matches_spec crate d :
  hint_matches crate d = true <->
  (exists n, CrateArgs.name crate = Some n /\ Str.nonempty n = true
             /\ n = CrateDetails.name d)
  \/ (exists p, CrateArgs.path crate = Some p /\ Str.nonempty p = true
                /\ p = CrateDetails.path d).
Proof.
  unfold hint_matches. rewrite orb_true_iff. split.
  - intros [H|H].
    + destruct (CrateArgs.name crate) as [n|]; [|discriminate].
      apply andb_true_iff in H as [H1 H2]. apply String.eqb_eq in H2.
      left. exists n. auto.
    + destruct (CrateArgs.path crate) as [p|]; [|discriminate].
      apply andb_true_iff in H as [H1 H2]. apply String.eqb_eq in H2.
      right. exists p. auto.
  - intros [(n & -> & Hn & ->) | (p & -> & Hp & ->)].
    + left. now rewrite Hn, String.eqb_refl.
    + right. now rewrite Hp, String.eqb_refl.
Qed.

Lemma hint_matches_both n p d :
  Str.nonempty n = true -> Str.nonempty p = true ->
  hint_matches (CrateArgs.make (Some n) (Some p)) d
  = (n =? CrateDetails.name d) || (p =? CrateDetails.path d).
Proof. unfold hint_matches; simpl. now intros -> ->. Qed.

Lemma loop_none_match crate pkgs : forall s,
  Forall (passed_over crate) pkgs ->
  fst (pkgid_loop rt crate pkgs s) = Throw (JsError "no matching crate found").
Proof.
  induction pkgs as [|m rest IH]; intros s H; [reflexivity|].
  inversion H; subst. rewrite loop_passed_over by assumption. now apply IH.
Qed.

Lemma loop_drop_malformed crate bad before after : forall s,
  malformed bad ->
  fst (pkgid_loop rt crate (before ++ bad :: after)%list s)
  = fst (pkgid_loop rt crate (before ++ after)%list s).
Proof.
  intros s Hbad. revert s.
  induction before as [|m before IH]; intros s; simpl app.
  - apply loop_passed_over. now left.
  - simpl. unfold bind.
    destruct (parseWorkspacePkg rt m s) as [[[d|]|e] t]; auto.
    destruct (hint_matches crate d); auto.
Qed.

Lemma findCrate_value crate s :
  fst (findCrate rt crate s)
  = fst (pkgid rt
           (CrateArgs.make
              (if truthy (CrateArgs.name crate) then CrateArgs.name crate else None)
              (if truthy (CrateArgs.path crate) then CrateArgs.path crate else None))
           s).
Proof.
  unfold findCrate, CrateArgs.none.
  destruct (truthy (CrateArgs.name crate)), (truthy (CrateArgs.path crate)); simpl;
    try reflexivity; unfold try_catch;
    match goal with
    | |- context [pkgid rt ?c s] => destruct (pkgid rt c s) as [[d|e] t]
    end; reflexivity.
Qed.

(** With a hint, whatever [pkgid] returns matches it. *)
Lemma pkgid_matches_hint crate s d s' :
  pkgid rt crate s = (Ok d, s') ->
  truthy (CrateArgs.name crate) || truthy (CrateArgs.path crate) = true ->
  hint_matches crate d = true.
Proof.
  intros H Hhint. apply pkgid_inv in H as (pkgs & s1 & _ & Hsel).
  unfold select in Hsel. rewrite Hhint in Hsel.
  now apply loop_inv in Hsel as (_ & _ & _ & _ & _ & _ & Hm).
Qed.

(** C5.  With both hints given, resolution returns a crate exactly when
    it is the first member, in the order listed, that is well formed and
    whose name is the name hint or whose path is the path hint: every
    member before it is malformed or matches neither hint.  That the two
    hints may match different members is nowhere checked, and [findCrate]
    returns what [pkgid] returns. *)
Theorem both_hints_first_match (n p : string) s pkgs s1 d :
  Str.nonempty n = true ->
  Str.nonempty p = true ->
  lists s pkgs s1 ->
  (fst (pkgid rt (CrateArgs.make (Some n) (Some p)) s) = Ok d
   <-> exists before pkg after,
       pkgs = (before ++ pkg :: after)%list
       /\ Forall (fun m =>
                    malformed m
                    \/ exists d', well_formed m d'
                                  /\ n <> CrateDetails.name d'
                                  /\ p <> CrateDetails.path d') before
       /\ well_formed pkg d
       /\ (n = CrateDetails.name d \/ p = CrateDetails.path d))
  /\ fst (findCrate rt (CrateArgs.make (Some n) (Some p)) s)
     = fst (pkgid rt (CrateArgs.make (Some n) (Some p)) s).
Proof.
  intros Hn Hp Hl. set (crate := CrateArgs.make (Some n) (Some p)).
  assert (Hskip : forall m,
             passed_over crate m <->
             malformed m
             \/ exists d', well_formed m d'
                           /\ n <> CrateDetails.name d'
                           /\ p <> CrateDetails.path d').
  { intros m. unfold passed_over.
    split; (intros [Hm | (d' & Hw & H)]; [now left | right; exists d'; split; auto]).
    - unfold crate in H. rewrite hint_matches_both in H by assumption.
      apply orb_false_iff in H as [H1 H2].
      apply String.eqb_neq in H1, H2. auto.
    - unfold crate. rewrite hint_matches_both by assumption.
      destruct H as [H1 H2]. apply String.eqb_neq in H1, H2. now rewrite H1, H2. }
  assert (Hhit : hint_matches crate d = true
                 <-> n = CrateDetails.name d \/ p = CrateDetails.path d).
  { unfold crate. rewrite hint_matches_both by assumption.
    now rewrite orb_true_iff, !String.eqb_eq. }
  split.
  - rewrite (pkgid_lists crate Hl). unfold select. simpl.
    rewrite Hn. simpl. split.
    + intros H. destruct (pkgid_loop rt crate pkgs s1) as [r t] eqn:Hloop.
      simpl in H. subst r.
      apply loop_inv in Hloop as (before & pkg & after & -> & Hb & Hw & Hm).
      exists before, pkg, after. repeat split; auto.
      * eapply Forall_impl; [|exact Hb]. intros m. apply Hskip.
      * now apply Hhit.
    + intros (before & pkg & after & -> & Hb & Hw & Hm).
      apply loop_first_match; auto.
      * eapply Forall_impl; [|exact Hb]. intros m. apply Hskip.
      * now apply Hhit.
  - rewrite findCrate_value. simpl. now rewrite Hn, Hp.
Qed.

(** C4, as amended.  With no hint, resolution returns a crate exactly
    when the listing has a single member and that member is well formed;
    a listing of two or more members fails. *)
Theorem no_hint_single_member crate s pkgs s1 :
  truthy (CrateArgs.name crate) = false ->
  truthy (CrateArgs.path crate) = false ->
  lists s pkgs s1 ->
  (forall d, fst (pkgid rt crate s) = Ok d
             <-> exists pkg, pkgs = [pkg] /\ well_formed pkg d)
  /\ (2 <= length pkgs ->
      fst (pkgid rt crate s) = Throw (JsError "no matching crate found")).
Proof.
  intros Hn Hp Hl. rewrite (pkgid_lists crate Hl).
  unfold select. rewrite Hn, Hp. simpl. split.
  - intros d. destruct pkgs as [|pkg [|pkg2 rest]]; simpl.
    + split; [discriminate | intros (? & [=] & _)].
    + unfold bind, info, emit.
      destruct (parseWorkspacePkg rt pkg _) as [[[d0|]|e] t] eqn:Hparse; simpl.
      * apply parse_inv in Hparse as [Hw _]. split.
        -- intros [= <-]. eauto.
        -- intros (pkg' & [= <-] & Hw').
           pose proof (parse_well_formed s Hw) as H1.
           pose proof (parse_well_formed s Hw') as H2.
           congruence.
      * apply parse_inv in Hparse as [Hm _]. split; [discriminate|].
        intros (pkg' & [= <-] & Hw').
        pose proof (parse_well_formed s Hw') as H1.
        pose proof (parse_malformed s Hm) as H2. congruence.
      * split; [discriminate|].
        intros (pkg' & [= <-] & Hw').
        rewrite (parse_well_formed _ Hw') in Hparse. discriminate.
    + split; [discriminate | intros (? & [=] & _)].
  - intros Hlen. destruct pkgs as [|pkg [|pkg2 rest]]; simpl in *; try lia.
    reflexivity.
Qed.

(** C6, as amended.  When a name or a path hint is given, a member that
    does not match the grammar is skipped with a warning: the loop goes
    on with the next member, and resolution returns what it returns for
    the listing without that member.  So a listing of one well-formed and
    one malformed member, in either order, resolves to the well-formed
    one when a hint matches it. *)
Theorem malformed_member_skipped crate bad :
  truthy (CrateArgs.name crate) || truthy (CrateArgs.path crate) = true ->
  malformed bad ->
  (forall rest s,
      pkgid_loop rt crate (bad :: rest) s
      = pkgid_loop rt crate rest (logged s (skip_warning bad)))
  /\ (forall before after s s1 s' s1',
         lists s (before ++ bad :: after)%list s1 ->
         lists s' (before ++ after)%list s1' ->
         fst (pkgid rt crate s) = fst (pkgid rt crate s'))
  /\ (forall good d s s1,
         well_formed good d ->
         hint_matches crate d = true ->
         lists s [good; bad] s1 \/ lists s [bad; good] s1 ->
         fst (pkgid rt crate s) = Ok d).
Proof.
  intros Hhint Hbad. split; [|split].
  - intros rest s. simpl. unfold bind.
    now rewrite (parse_malformed s Hbad).
  - intros before after s s1 s' s1' Hl Hl'.
    rewrite (pkgid_lists crate Hl), (pkgid_lists crate Hl').
    unfold select. rewrite Hhint.
    rewrite loop_drop_malformed by assumption. apply loop_value.
  - intros good d s s1 Hw Hm [Hl|Hl];
      rewrite (pkgid_lists crate Hl); unfold select; rewrite Hhint.
    + apply (@loop_first_match crate [] good [bad] d); auto.
    + apply (@loop_first_match crate [bad] good [] d); auto.
      constructor; [now left | constructor].
Qed.

(** C8, as amended.  A crate returned by resolution is read off a member
    of the listing that matches the grammar: its name and version are
    the non-empty first and second fields, and its path is the normalized
    pathname of the member's file URL.  Nothing is checked against the
    file system.  When a hint is given the returned crate matches the
    name hint or the path hint, and when every member is malformed or
    matched by neither hint, resolution fails. *)
Theorem resolved_details crate s :
  (forall d s',
      pkgid rt crate s = (Ok d, s') ->
      exists pkgs s1 pkg,
        lists s pkgs s1
        /\ In pkg pkgs
        /\ well_formed pkg d
        /\ Str.nonempty (CrateDetails.version d) = true
        /\ Str.nonempty (CrateDetails.name d) = true
        /\ (truthy (CrateArgs.name crate) || truthy (CrateArgs.path crate) = true ->
            hint_matches crate d = true))
  /\ (forall pkgs s1,
         lists s pkgs s1 ->
         truthy (CrateArgs.name crate) || truthy (CrateArgs.path crate) = true ->
         Forall (passed_over crate) pkgs ->
         fst (pkgid rt crate s) = Throw (JsError "no matching crate found")).
Proof.
  split.
  - intros d s' H.
    apply pkgid_inv in H as (pkgs & s1 & Hl & Hsel).
    assert (Hfields : forall pkg, well_formed pkg d ->
              Str.nonempty (CrateDetails.version d) = true
              /\ Str.nonempty (CrateDetails.name d) = true).
    { intros pkg (url & u & Hre & _). apply member_regex_nonempty in Hre. tauto. }
    unfold select in Hsel.
    destruct (truthy (CrateArgs.name crate) || truthy (CrateArgs.path crate)) eqn:Hhint.
    + apply loop_inv in Hsel as (before & pkg & after & -> & Hb & Hw & Hm).
      exists (before ++ pkg :: after)%list, s1, pkg.
      destruct (Hfields pkg Hw). repeat split; auto.
      apply in_or_app. right. now left.
    + destruct pkgs as [|pkg [|pkg2 rest]]; try discriminate.
      unfold bind, info, emit in Hsel.
      destruct (parseWorkspacePkg rt pkg _) as [[[d0|]|e] t] eqn:Hparse;
        try discriminate.
      injection Hsel as <- <-.
      apply parse_inv in Hparse as [Hw _].
      exists [pkg], s1, pkg. destruct (Hfields pkg Hw).
      repeat split; auto; [now left | discriminate].
  - intros pkgs s1 Hl Hhint Hall.
    rewrite (pkgid_lists crate Hl). unfold select. rewrite Hhint.
    now apply loop_none_match.
Qed.

(** ** The release and the pull request *)

Lemma bind_inv A B (m : M World A) (k : A -> M World B) s b s' :
  bind m k s = (Ok b, s') ->
  exists a s0, m s = (Ok a, s0) /\ k a s0 = (Ok b, s').
Proof.
  unfold bind. destruct (m s) as [[a|e] s0]; [eauto | discriminate].
Qed.

Lemma execAndSucceed_inv program args cwd s s' :
  execAndSucceed rt program args cwd s = (Ok tt, s') ->
  exec rt program args cwd (world s) = (Ok 0%Z, world s') /\ log s' = log s.
Proof.
  unfold execAndSucceed, bind, call.
  destruct (exec rt program args cwd (world s)) as [[code|e] w]; [|discriminate].
  destruct (Z.eqb code 0) eqn:Hc; [|discriminate].
  apply Z.eqb_eq in Hc. subst code. unfold ret. intros [= <-]. auto.
Qed.



(** C3, as amended.  The file named by a non-empty template file path is
    read, and its contents are the template unless they are blank after
    trimming; with no file, an inline template that is not blank after
    trimming is the template, verbatim and with nothing read; in every
    other case, a blank file included, the default template shipped with
    the action is read. *)
Theorem body_template_source pr s :
  (forall file contents w,
      pr_templateFile pr = Some file ->
      Str.nonempty file = true ->
      readFile rt file (world s) = (Ok contents, w) ->
      bodyTemplate rt pr s
      = if Str.nonempty (Str.trim contents)
        then (Ok contents, {| world := w; log := log s |})
        else call (readFile rt default_template_file) {| world := w; log := log s |})
  /\ (forall inline,
         truthy (pr_templateFile pr) = false ->
         pr_template pr = Some inline ->
         Str.nonempty (Str.trim inline) = true ->
         bodyTemplate rt pr s = (Ok inline, s))
  /\ (truthy (pr_templateFile pr) = false ->
      blank (pr_template pr) = true ->
      bodyTemplate rt pr s = call (readFile rt default_template_file) s).
Proof.
  unfold bodyTemplate, default_template_file. split; [|split].
  - intros file contents w Hfile Hne Hread.
    rewrite Hfile. simpl. rewrite Hne. unfold bind at 1. unfold bind, call.
    rewrite Hread. unfold ret. simpl.
    now destruct (Str.nonempty (Str.trim contents)).
  - intros inline Hnofile Hinline Hne.
    rewrite Hnofile, Hinline. unfold bind, ret. simpl. now rewrite Hne.
  - intros Hnofile Hblank. rewrite Hnofile. unfold bind, ret.
    destruct (pr_template pr) as [t|]; [|reflexivity].
    now rewrite Hblank.
Qed.

(** C9.  [makePR] renders the title first, from the variables without
    [title]: if that fails it stops there, before any template is read.
    Otherwise it renders the body template from the same variables with
    [title] set to the title just rendered, whatever that title is, and
    the pull request carries that title and that body.  When ejs renders
    [release: <%= crate.name %> v<%= version.actual %>] as
    [release: foo v1.2.3] for the name [foo] and the version [1.2.3],
    the title of the crate [foo] released as [1.2.3] is exactly
    [release: foo v1.2.3], and that string is the [title] the body
    template is rendered with. *)
Theorem title_rendered_first inputs crate baseBranch branchName newVersion s :
  let pr := in_pr inputs in
  let vars (title : option string) :=
    {| vars_pr := pr;
       vars_crate_name := CrateDetails.name crate;
       vars_crate_path := CrateDetails.path crate;
       vars_version_previous := CrateDetails.version crate;
       vars_version_actual := newVersion;
       vars_version_desired := in_version inputs;
       vars_branchName := branchName;
       vars_title := title |} in
  let request (title body : string) :=
    {| pull_title := title;
       pull_body := body;
       pull_head := branchName;
       pull_base := baseBranch;
       pull_maintainer_can_modify := pr_modifiable pr;
       pull_draft := pr_draft pr |} in
  let opened (s1 : State World) (w : World) (url : string) :=
    {| world := w;
       log := (log s1 ++ [Info ("PR opened: " ++ url); SetOutput "pr-url" url])%list |} in
  (forall e,
      ejs_render rt (pr_title pr) (vars None) = Throw e ->
      makePR rt inputs crate baseBranch branchName newVersion s = (Throw e, s))
  /\ (forall title template s1 e,
         ejs_render rt (pr_title pr) (vars None) = Ok title ->
         bodyTemplate rt pr s = (Ok template, s1) ->
         ejs_render rt template (vars (Some title)) = Throw e ->
         makePR rt inputs crate baseBranch branchName newVersion s = (Throw e, s1))
  /\ (forall title template s1 body url w,
         ejs_render rt (pr_title pr) (vars None) = Ok title ->
         bodyTemplate rt pr s = (Ok template, s1) ->
         ejs_render rt template (vars (Some title)) = Ok body ->
         create_pull rt (githubToken inputs) (request title body) (world s1)
         = (Ok url, w) ->
         makePR rt inputs crate baseBranch branchName newVersion s
         = (Ok tt, opened s1 w url))
  /\ (forall s',
         makePR rt inputs crate baseBranch branchName newVersion s = (Ok tt, s') ->
         exists title template s1 body url w,
           ejs_render rt (pr_title pr) (vars None) = Ok title
           /\ bodyTemplate rt pr s = (Ok template, s1)
           /\ ejs_render rt template (vars (Some title)) = Ok body
           /\ create_pull rt (githubToken inputs) (request title body) (world s1)
              = (Ok url, w)
           /\ s' = opened s1 w url)
  /\ ((forall v,
          vars_crate_name v = "foo" ->
          vars_version_actual v = "1.2.3" ->
          ejs_render rt "release: <%= crate.name %> v<%= version.actual %>" v
          = Ok "release: foo v1.2.3") ->
      pr_title pr = "release: <%= crate.name %> v<%= version.actual %>" ->
      CrateDetails.name crate = "foo" ->
      newVersion = "1.2.3" ->
      ejs_render rt (pr_title pr) (vars None) = Ok "release: foo v1.2.3"
      /\ forall s',
          makePR rt inputs crate baseBranch branchName newVersion s = (Ok tt, s') ->
          exists template s1 body url w,
            bodyTemplate rt pr s = (Ok template, s1)
            /\ ejs_render rt template (vars (Some "release: foo v1.2.3")) = Ok body
            /\ create_pull rt (githubToken inputs)
                 (request "release: foo v1.2.3" body) (world s1)
               = (Ok url, w)
            /\ s' = opened s1 w url).
Proof.
  intros pr vars request opened.
  assert (Hsteps :
            makePR rt inputs crate baseBranch branchName newVersion s
            = (title <- pure (ejs_render rt (pr_title pr) (vars None)) ;;
               template <- bodyTemplate rt pr ;;
               body <- pure (ejs_render rt template (vars (Some title))) ;;
               url <- call (create_pull rt (githubToken inputs) (request title body)) ;;
               emit (Info ("PR opened: " ++ url)) ;;;
               emit (SetOutput "pr-url" url)) s)
    by reflexivity.
  assert (Hinv : forall s',
             makePR rt inputs crate baseBranch branchName newVersion s = (Ok tt, s') ->
             exists title template s1 body url w,
               ejs_render rt (pr_title pr) (vars None) = Ok title
               /\ bodyTemplate rt pr s = (Ok template, s1)
               /\ ejs_render rt template (vars (Some title)) = Ok body
               /\ create_pull rt (githubToken inputs) (request title body) (world s1)
                  = (Ok url, w)
               /\ s' = opened s1 w url).
  { intros s' H. rewrite Hsteps in H.
    apply bind_inv in H as (title & s0 & Ht & H).
    unfold pure in Ht. injection Ht as Ht <-.
    apply bind_inv in H as (template & s1 & Htpl & H).
    apply bind_inv in H as (body & s2 & Hbody & H).
    unfold pure in Hbody. injection Hbody as Hbody <-.
    apply bind_inv in H as (url & s3 & Hurl & H).
    unfold call in Hurl.
    destruct (create_pull rt _ _ (world s1)) as [x w] eqn:Hpull.
    injection Hurl as -> <-.
    unfold bind, emit in H. injection H as <-.
    exists title, template, s1, body, url, w.
    repeat split; auto. unfold opened. cbn [world log].
    now rewrite <- app_assoc. }
  split; [|split; [|split; [|split]]].
  - intros e Ht. rewrite Hsteps. unfold bind, pure. now rewrite Ht.
  - intros title template s1 e Ht Htpl Hbody. rewrite Hsteps.
    unfold bind at 1. unfold pure at 1. rewrite Ht.
    unfold bind at 1. rewrite Htpl.
    unfold bind, pure. now rewrite Hbody.
  - intros title template s1 body url w Ht Htpl Hbody Hpull. rewrite Hsteps.
    unfold bind at 1. unfold pure at 1. rewrite Ht.
    unfold bind at 1. rewrite Htpl.
    unfold bind at 1. unfold pure at 1. rewrite Hbody.
    unfold bind, call, emit. rewrite Hpull. unfold opened. cbn [world log].
    now rewrite <- app_assoc.
  - exact Hinv.
  - intros Hejs Htpl Hname Hver.
    assert (Ht : ejs_render rt (pr_title pr) (vars None) = Ok "release: foo v1.2.3")
      by (rewrite Htpl; apply Hejs; [exact Hname | exact Hver]).
    split; [exact Ht|].
    intros s' H.
    destruct (Hinv s' H) as (title & template & s1 & body & url & w
                             & Ht' & Hbt & Hbody & Hpull & Hs').
    rewrite Ht in Ht'. injection Ht' as <-.
    exists template, s1, body, url, w. auto.
Qed.

(** ** The release branch *)

(** C10.  The branch [makeBranch] creates, reports as [pr-branch] and
    returns is named by the prefix, the separator and the requested
    version, in that order, whatever that version string is.  In a run,
    the branch is made from the requested version of the inputs before
    the crate is resolved and before [runCargoRelease] is entered, which
    receives that same name. *)
Theorem branch_named_after_requested_version version git s :
  let branchName := git_branchPrefix git ++ git_branchSeparator git ++ version in
  (forall w,
      exec rt "git" ["switch"; "-c"; branchName] None (world s) = (Ok 0%Z, w) ->
      makeBranch rt version git s
      = (Ok branchName,
         {| world := w;
            log := (log s ++ [Info ("Creating branch " ++ branchName);
                              SetOutput "pr-branch" branchName])%list |}))
  /\ (forall b s', makeBranch rt version git s = (Ok b, s') -> b = branchName)
  /\ (forall s',
         run rt s = (Ok tt, s') ->
         exists inputs s1 s2 crate s3 newVersion s4,
           let b := git_branchPrefix (in_git inputs)
                    ++ git_branchSeparator (in_git inputs)
                    ++ in_version inputs in
           fst (getInputs rt (world s)) = Ok inputs
           /\ makeBranch rt (in_version inputs) (in_git inputs) s1 = (Ok b, s2)
           /\ findCrate rt (in_crate inputs) s2 = (Ok crate, s3)
           /\ runCargoRelease rt crate (in_version inputs) b s3
              = (Ok newVersion, s4)).
Proof.
  intros branchName.
  assert (Hname : forall v g,
             Str.join (git_branchSeparator g) [git_branchPrefix g; v]
             = git_branchPrefix g ++ git_branchSeparator g ++ v)
    by reflexivity.
  assert (Hret : forall v g t b t',
             makeBranch rt v g t = (Ok b, t') ->
             b = git_branchPrefix g ++ git_branchSeparator g ++ v).
  { intros v g t b t' H. unfold makeBranch in H. rewrite Hname in H.
    apply bind_inv in H as (? & ? & _ & H).
    apply bind_inv in H as (? & ? & _ & H).
    apply bind_inv in H as (? & ? & _ & H).
    now injection H as <- _. }
  split; [|split].
  - intros w Hexec. unfold makeBranch. rewrite Hname. fold branchName.
    unfold execAndSucceed, info, setOutput, emit, call, ret, bind.
    cbn [world log]. rewrite Hexec. cbn [world log Z.eqb].
    rewrite <- app_assoc. reflexivity.
  - intros b s' H. now apply Hret in H.
  - intros s' H. unfold run in H.
    apply bind_inv in H as (inputs & sa & Hin & H).
    apply bind_inv in H as ([] & sb & _ & H).
    apply bind_inv in H as (base & s1 & _ & H).
    apply bind_inv in H as (b & s2 & Hb & H).
    apply bind_inv in H as (crate & s3 & Hc & H).
    apply bind_inv in H as (nv & s4 & Hr & H).
    pose proof (Hret _ _ _ _ _ Hb) as ->.
    exists inputs, s1, s2, crate, s3, nv, s4. simpl.
    repeat split; auto.
    unfold call in Hin. destruct (getInputs rt (world s)) as [r w].
    now injection Hin as -> _.
Qed.

(** ** What is logged and what is touched *)





















Lemma bind_cases A B (m : M World A) (k : A -> M World B) s r s' :
  bind m k s = (r, s') ->
  (exists a s0, m s = (Ok a, s0) /\ k a s0 = (r, s'))
  \/ (exists e, m s = (Throw e, s') /\ r = Throw e).
Proof.
  unfold bind. destruct (m s) as [[a|e] s0]; [eauto|].
  intros [= <- <-]. eauto.
Qed.






(** X2: the entry point.  [main] never throws.  When the run succeeds it
    adds nothing; when any step of the run throws, [main] ends with a
    single [setFailed] carrying the message of the error (or the thrown
    string, or a fixed text for any other value), in the state the
    failing step left. *)
Theorem main_reports_failure s :
  fst (main rt s) = Ok tt
  /\ (forall s', run rt s = (Ok tt, s') -> main rt s = (Ok tt, s'))
  /\ (forall e s',
         run rt s = (Throw e, s') ->
         main rt s = (Ok tt, logged s' (SetFailed (failure_message e)))).
Proof.
  unfold main, try_catch.
  destruct (run rt s) as [[[]|e] t] eqn:Hrun.
  - repeat split; try discriminate. now intros s' [= <-].
  - repeat split; try discriminate.
    + now destruct e.
    + intros e' s' [= <- <-]. now destruct e.
Qed.

Lemma parse_effects pkg s r s' :
  parseWorkspacePkg rt pkg s = (r, s') ->
  world s' = world s
  /\ exists l, log s' = (log s ++ l)%list /\ Forall resolver_event l.
Proof.
  unfold parseWorkspacePkg.
  destruct (member_regex pkg) as [[[n v] url]|] eqn:Hre.
  - unfold bind, pure. intros H.
    assert (s' = s) as ->.
    { destruct (URL rt url) as [u|e]; [|now injection H].
      destruct (negb _); now injection H. }
    split; [reflexivity|]. exists []. now rewrite app_nil_r.
  - intros [= <- <-]. split; [reflexivity|].
    exists [skip_warning pkg]. split; [reflexivity|].
    constructor; [|constructor]. right. now exists pkg.
Qed.

Lemma loop_effects crate pkgs : forall s r s',
  pkgid_loop rt crate pkgs s = (r, s') ->
  world s' = world s
  /\ exists l, log s' = (log s ++ l)%list /\ Forall resolver_event l.
Proof.
  induction pkgs as [|pkg rest IH]; intros s r s' H; simpl in H.
  - injection H as <- <-. split; [reflexivity|]. exists []. now rewrite app_nil_r.
  - apply bind_cases in H as [(parsed & s0 & H0 & H) | (e & H0 & ->)];
      apply parse_effects in H0 as (W0 & l0 & L0 & F0).
    + assert (Hrest : world s' = world s0
                      /\ exists l, log s' = (log s0 ++ l)%list /\ Forall resolver_event l).
      { destruct parsed as [d|]; [|now apply IH in H].
        destruct (hint_matches crate d); [|now apply IH in H].
        injection H as <- <-. split; [reflexivity|]. exists [].
        now rewrite app_nil_r. }
      destruct Hrest as (W1 & l1 & L1 & F1). split; [congruence|].
      exists (l0 ++ l1)%list. split; [|now apply Forall_app].
      now rewrite L1, L0, app_assoc.
    + eauto.
Qed.

(** Whatever its result, [pkgid] reaches the world through one query and
    adds only notes and warnings of the resolver to the log. *)
Lemma pkgid_touches crate s r s' :
  pkgid rt crate s = (r, s') ->
  world s' = snd (getExecOutput rt "cargo" ["metadata"; "--format-version=1"] (world s))
  /\ exists l, log s' = (log s ++ l)%list /\ Forall resolver_event l.
Proof.
  unfold pkgid, execWithOutput, call. intros H.
  unfold bind at 1 2 in H.
  destruct (getExecOutput rt "cargo" ["metadata"; "--format-version=1"] (world s))
    as [[[code stdout]|e] w].
  2: { injection H as <- <-. simpl. split; [reflexivity|].
       exists []. now rewrite app_nil_r. }
  simpl snd.
  set (s0 := {| world := w; log := log s |}) in H.
  assert (Hnil : world s0 = w
                 /\ exists l, log s0 = (log s ++ l)%list /\ Forall resolver_event l).
  { split; [reflexivity|]. exists []. simpl. now rewrite app_nil_r. }
  destruct (Z.eqb code 0); unfold ret, throw in H; [|now injection H as <- <-].
  apply bind_cases in H as [(pkgs & s1 & H1 & H) | (e & H1 & ->)];
    [|now injection H1 as _ <-].
  injection H1 as _ <-.
  destruct (_ || _).
  - apply loop_effects in H as (W & l & L & F). split; [exact W | eauto].
  - destruct pkgs as [|pkg [|pkg2 rest]]; try (now injection H as <- <-).
    unfold info in H.
    apply bind_cases in H as [([] & s2 & H2 & H) | (e & H2 & ->)];
      [|discriminate].
    injection H2 as <-.
    apply bind_cases in H as [(parsed & s3 & H3 & H) | (e & H3 & ->)];
      apply parse_effects in H3 as (W3 & l3 & L3 & F3).
    + assert (s' = s3) as -> by (destruct parsed; now injection H).
      split; [exact W3|].
      exists (Info "only one crate in workspace, assuming that is it" :: l3).
      split; [rewrite L3; simpl; now rewrite <- app_assoc|].
      constructor; [now left | exact F3].
    + split; [exact W3|].
      exists (Info "only one crate in workspace, assuming that is it" :: l3).
      split; [rewrite L3; simpl; now rewrite <- app_assoc|].
      constructor; [now left | exact F3].
Qed.

Lemma parse_url_throw pkg n v url e s :
  member_regex pkg = Some (n, v, url) ->
  URL rt url = Throw e ->
  parseWorkspacePkg rt pkg s = (Throw e, s).
Proof.
  intros Hre Hu. unfold parseWorkspacePkg, bind, pure. now rewrite Hre, Hu.
Qed.

Lemma loop_passes crate before rest : forall s,
  Forall (passed_over crate) before ->
  pkgid_loop rt crate (before ++ rest)%list s
  = pkgid_loop rt crate rest
      {| world := world s; log := (log s ++ skip_warnings before)%list |}.
Proof.
  induction before as [|m before IH]; intros s H.
  - unfold skip_warnings. cbn [app filter map]. rewrite app_nil_r.
    now destruct s.
  - inversion H as [|? ? Hm Hb]; subst. cbn [app pkgid_loop]. unfold bind.
    unfold skip_warnings, is_malformed. cbn [filter].
    destruct Hm as [Hmal | (d & Hw & Hno)].
    + rewrite (parse_malformed s Hmal). unfold malformed in Hmal. rewrite Hmal.
      rewrite (IH _ Hb). unfold logged, skip_warnings. cbn [world log map].
      now rewrite <- app_assoc.
    + rewrite (parse_well_formed s Hw), Hno.
      destruct Hw as (url & u & -> & _). now rewrite (IH _ Hb).
Qed.

(** X3: what resolution touches and logs.  [pkgid] reaches the world
    through the [cargo metadata] query only, and given the listing its
    final state is exact.  With a hint, the log gains one warning for
    each malformed member met before the search stops, in the order
    listed, and nothing else: the members before the match when a crate
    is returned, all of them when none matches, and those before a member
    whose URL does not parse when the search fails there.  With no hint,
    the log gains the note about a single crate when the listing has one
    member, followed by a warning when that member is malformed, and
    nothing when the listing has another length. *)
Theorem pkgid_effects crate s pkgs s1 :
  lists s pkgs s1 ->
  let searched (passed : list string) :=
    {| world := world s1; log := (log s ++ skip_warnings passed)%list |} in
  let noted (more : list Event) :=
    {| world := world s1;
       log := (log s ++ Info "only one crate in workspace, assuming that is it"
                     :: more)%list |} in
  world s1 = snd (getExecOutput rt "cargo" ["metadata"; "--format-version=1"] (world s))
  /\ (forall r s', pkgid rt crate s = (r, s') -> world s' = world s1)
  /\ (truthy (CrateArgs.name crate) || truthy (CrateArgs.path crate) = true ->
      (forall before pkg after d,
          pkgs = (before ++ pkg :: after)%list ->
          Forall (passed_over crate) before ->
          well_formed pkg d ->
          hint_matches crate d = true ->
          pkgid rt crate s = (Ok d, searched before))
      /\ (Forall (passed_over crate) pkgs ->
          pkgid rt crate s
          = (Throw (JsError "no matching crate found"), searched pkgs))
      /\ (forall before pkg after n v url e,
             pkgs = (before ++ pkg :: after)%list ->
             Forall (passed_over crate) before ->
             member_regex pkg = Some (n, v, url) ->
             URL rt url = Throw e ->
             pkgid rt crate s = (Throw e, searched before)))
  /\ (truthy (CrateArgs.name crate) || truthy (CrateArgs.path crate) = false ->
      (forall pkg d,
          pkgs = [pkg] -> well_formed pkg d ->
          pkgid rt crate s = (Ok d, noted []))
      /\ (forall pkg,
             pkgs = [pkg] -> malformed pkg ->
             pkgid rt crate s
             = (Throw (JsError "no good crate found"), noted [skip_warning pkg]))
      /\ (length pkgs <> 1 ->
          pkgid rt crate s = (Throw (JsError "no matching crate found"), s1))).
Proof.
  intros Hl searched noted.
  pose proof (pkgid_lists crate Hl) as Hp.
  destruct Hl as (stdout & w & Hout & Hmem & ->). cbn [world log] in *.
  split; [now rewrite Hout|]. split; [|split].
  - intros r s' H. apply pkgid_touches in H as [H _]. now rewrite H, Hout.
  - intros Hhint. rewrite Hp. unfold select. rewrite Hhint. split; [|split].
    + intros before pkg after d -> Hb Hw Hm.
      rewrite (loop_passes _ _ Hb). cbn [pkgid_loop world log]. unfold bind.
      now rewrite (parse_well_formed _ Hw), Hm.
    + intros Hall. rewrite <- (app_nil_r pkgs) at 1.
      now rewrite (loop_passes _ _ Hall).
    + intros before pkg after n v url e -> Hb Hre Hu.
      rewrite (loop_passes _ _ Hb). cbn [pkgid_loop world log]. unfold bind.
      now rewrite (@parse_url_throw pkg n v url e _ Hre Hu).
  - intros Hhint. rewrite Hp. unfold select. rewrite Hhint. split; [|split].
    + intros pkg d -> Hw. unfold bind, info, emit. cbn [world log].
      now rewrite (parse_well_formed _ Hw).
    + intros pkg -> Hmal. unfold bind, info, emit. cbn [world log].
      rewrite (parse_malformed _ Hmal). unfold logged, noted. cbn [world log].
      now rewrite <- app_assoc.
    + intros Hlen. destruct pkgs as [|pkg [|pkg2 rest]]; try reflexivity.
      now contradiction Hlen.
Qed.

(** X4: resolution by a single hint.  With only a name hint, resolution
    returns a crate exactly when it is the first well-formed member of
    that name, every member before it being malformed or of another name;
    with only a path hint, exactly when it is the first well-formed
    member whose normalized path is the hint as given. *)
Theorem single_hint_first_match hint s pkgs s1 d :
  Str.nonempty hint = true ->
  lists s pkgs s1 ->
  (fst (pkgid rt (CrateArgs.make (Some hint) None) s) = Ok d
   <-> exists before pkg after,
       pkgs = (before ++ pkg :: after)%list
       /\ Forall (fun m =>
                    malformed m
                    \/ exists d', well_formed m d' /\ hint <> CrateDetails.name d')
                 before
       /\ well_formed pkg d
       /\ hint = CrateDetails.name d)
  /\ (fst (pkgid rt (CrateArgs.make None (Some hint)) s) = Ok d
      <-> exists before pkg after,
          pkgs = (before ++ pkg :: after)%list
          /\ Forall (fun m =>
                       malformed m
                       \/ exists d', well_formed m d' /\ hint <> CrateDetails.path d')
                    before
          /\ well_formed pkg d
          /\ hint = CrateDetails.path d).
Proof.
  intros Hne Hl.
  assert (Hn : forall x, hint_matches (CrateArgs.make (Some hint) None) x
                         = (hint =? CrateDetails.name x))
    by (intros x; unfold hint_matches; simpl; rewrite Hne; simpl; apply orb_false_r).
  assert (Hp : forall x, hint_matches (CrateArgs.make None (Some hint)) x
                         = (hint =? CrateDetails.path x))
    by (intros x; unfold hint_matches; simpl; now rewrite Hne).
  split.
  - rewrite (pkgid_lists _ Hl). unfold select. simpl. rewrite Hne. simpl. split.
    + intros H. destruct (pkgid_loop rt _ pkgs s1) as [r t] eqn:Hloop.
      simpl in H. subst r.
      apply loop_inv in Hloop as (before & pkg & after & -> & Hb & Hw & Hm).
      exists before, pkg, after. repeat split; auto.
      * eapply Forall_impl; [|exact Hb].
        intros m [Hmal | (d' & Hw' & Hno)]; [now left | right].
        exists d'. split; [exact Hw'|]. rewrite Hn in Hno.
        now apply String.eqb_neq.
      * rewrite Hn in Hm. now apply String.eqb_eq.
    + intros (before & pkg & after & -> & Hb & Hw & Hm).
      apply loop_first_match; auto.
      * eapply Forall_impl; [|exact Hb].
        intros m [Hmal | (d' & Hw' & Hno)]; [now left | right].
        exists d'. split; [exact Hw'|]. rewrite Hn. now apply String.eqb_neq.
      * rewrite Hn. now apply String.eqb_eq.
  - rewrite (pkgid_lists _ Hl). unfold select. simpl. rewrite Hne. simpl. split.
    + intros H. destruct (pkgid_loop rt _ pkgs s1) as [r t] eqn:Hloop.
      simpl in H. subst r.
      apply loop_inv in Hloop as (before & pkg & after & -> & Hb & Hw & Hm).
      exists before, pkg, after. repeat split; auto.
      * eapply Forall_impl; [|exact Hb].
        intros m [Hmal | (d' & Hw' & Hno)]; [now left | right].
        exists d'. split; [exact Hw'|]. rewrite Hp in Hno.
        now apply String.eqb_neq.
      * rewrite Hp in Hm. now apply String.eqb_eq.
    + intros (before & pkg & after & -> & Hb & Hw & Hm).
      apply loop_first_match; auto.
      * eapply Forall_impl; [|exact Hb].
        intros m [Hmal | (d' & Hw' & Hno)]; [now left | right].
        exists d'. split; [exact Hw'|]. rewrite Hp. now apply String.eqb_neq.
      * rewrite Hp. now apply String.eqb_eq.
Qed.

(** X5: a URL that does not parse.  Unlike a member that does not match
    the grammar, a member that matches it but whose URL [new URL]
    rejects is not skipped: when the search reaches it, resolution fails
    with that error, whatever members follow. *)
Theorem unparsable_url_is_fatal crate s before pkg after s1 n v url e :
  truthy (CrateArgs.name crate) || truthy (CrateArgs.path crate) = true ->
  lists s (before ++ pkg :: after)%list s1 ->
  Forall (passed_over crate) before ->
  member_regex pkg = Some (n, v, url) ->
  URL rt url = Throw e ->
  fst (pkgid rt crate s) = Throw e.
Proof.
  intros Hhint Hl Hb Hre Hu.
  rewrite (pkgid_lists crate Hl). unfold select. rewrite Hhint.
  clear Hl. revert s1. induction Hb as [|m before Hm Hb IH]; intros s1; simpl app.
  - simpl. unfold bind. now rewrite (@parse_url_throw pkg n v url e s1 Hre Hu).
  - rewrite loop_passed_over by assumption. apply IH.
Qed.

(** X7: the dispatch of [findCrate].  A hint that is absent or empty is
    dropped, and resolution runs once with the hints that remain.  Its
    result is returned as it is; when it fails, the same error is thrown
    again, after an error line that is written only when no hint or both
    hints were given. *)
Theorem findCrate_dispatch crate s :
  (forall d s',
      pkgid rt (effective_hints crate) s = (Ok d, s') ->
      findCrate rt crate s = (Ok d, s'))
  /\ (forall e s',
         pkgid rt (effective_hints crate) s = (Throw e, s') ->
         findCrate rt crate s
         = (Throw e,
            match complaint crate with
            | Some line => logged s' (Error line)
            | None => s'
            end)).
Proof.
  unfold findCrate, effective_hints, complaint, CrateArgs.none, try_catch.
  destruct (truthy (CrateArgs.name crate)), (truthy (CrateArgs.path crate));
    simpl; split; intros ? ? H; rewrite H; reflexivity.
Qed.

(** ** Probing and installing the versioning tool *)

Lemma toolExists_spec name s r w :
  exec rt name ["--help"] None (world s) = (r, w) ->
  toolExists rt name s = (Ok (exited_zero r), {| world := w; log := log s |}).
Proof.
  intros H. unfold toolExists, try_catch, bind, call. rewrite H.
  destruct r as [code|e]; reflexivity.
Qed.

(** X8: the probe.  [toolExists] never throws and logs nothing: it
    answers [true] exactly when [name --help] ran and exited with code
    zero, and [false] both when it exited with another code and when it
    could not be run at all. *)
Theorem probe_absorbs_failure name s :
  exists b s',
    toolExists rt name s = (Ok b, s')
    /\ log s' = log s
    /\ world s' = snd (exec rt name ["--help"] None (world s))
    /\ (b = true <-> fst (exec rt name ["--help"] None (world s)) = Ok 0%Z).
Proof.
  destruct (exec rt name ["--help"] None (world s)) as [r w] eqn:H.
  exists (exited_zero r), {| world := w; log := log s |}.
  rewrite (toolExists_spec _ _ H). repeat split; simpl.
  - destruct r as [code|e]; simpl; [|discriminate].
    intros Hc. apply Z.eqb_eq in Hc. now subst.
  - intros ->. reflexivity.
Qed.

Lemma execAndSucceed_zero program args cwd s w :
  exec rt program args cwd (world s) = (Ok 0%Z, w) ->
  execAndSucceed rt program args cwd s = (Ok tt, {| world := w; log := log s |}).
Proof.
  intros H. unfold execAndSucceed, bind, call. now rewrite H.
Qed.

Lemma execAndSucceed_throw program args cwd s e w :
  exec rt program args cwd (world s) = (Throw e, w) ->
  execAndSucceed rt program args cwd s = (Throw e, {| world := w; log := log s |}).
Proof.
  intros H. unfold execAndSucceed, bind, call. now rewrite H.
Qed.

(** X9: the installation fallback.  When the probe for [cargo-release]
    succeeds, nothing is installed and the release command is what runs
    next.  When it fails in any way, a warning is written and
    [cargo-binstall] is probed: the installer is [cargo binstall
    cargo-release] if that probe succeeds and [cargo install
    cargo-release] otherwise.  The release command runs after an
    installer that exits with code zero; when the installer is rejected,
    the release ends there with the installer's error and the release
    command is not run.  The release command is [cargo release] with the
    fixed flags, the branch and the requested version, run in the
    directory of the crate; its success or its error is the result. *)
Theorem install_fallback crate version branchName s :
  let release (w : World) :=
    exec rt "cargo" (release_args version branchName)
         (Some (CrateDetails.path crate)) w in
  let settled (r : Result Z) : Prop := r = Ok 0%Z \/ exists e, r = Throw e in
  let answer (r : Result Z) : Result unit :=
    match r with Ok _ => Ok tt | Throw e => Throw e end in
  let installer (r2 : Result Z) := if exited_zero r2 then "binstall" else "install" in
  let notes (r2 : Result Z) :=
    [Warning "cargo-release is not available, attempting to install it";
     Info ("trying to install cargo-release with cargo-" ++ installer r2)] in
  (forall w rr w',
      exec rt "cargo-release" ["--help"] None (world s) = (Ok 0%Z, w) ->
      release w = (rr, w') ->
      settled rr ->
      cargoRelease_invoke rt crate version branchName s
      = (answer rr, {| world := w'; log := log s |}))
  /\ (forall r w r2 w2 w3 rr w',
         exec rt "cargo-release" ["--help"] None (world s) = (r, w) ->
         exited_zero r = false ->
         exec rt "cargo-binstall" ["--help"] None w = (r2, w2) ->
         exec rt "cargo" [installer r2; "cargo-release"] None w2 = (Ok 0%Z, w3) ->
         release w3 = (rr, w') ->
         settled rr ->
         cargoRelease_invoke rt crate version branchName s
         = (answer rr, {| world := w'; log := (log s ++ notes r2)%list |}))
  /\ (forall r w r2 w2 e w3,
         exec rt "cargo-release" ["--help"] None (world s) = (r, w) ->
         exited_zero r = false ->
         exec rt "cargo-binstall" ["--help"] None w = (r2, w2) ->
         exec rt "cargo" [installer r2; "cargo-release"] None w2 = (Throw e, w3) ->
         cargoRelease_invoke rt crate version branchName s
         = (Throw e, {| world := w3; log := (log s ++ notes r2)%list |})).
Proof.
  intros release settled answer installer notes.
  assert (Hfinish : forall st rr w',
             release (world st) = (rr, w') ->
             settled rr ->
             execAndSucceed rt "cargo" (release_args version branchName)
                            (Some (CrateDetails.path crate)) st
             = (answer rr, {| world := w'; log := log st |})).
  { intros st rr w' H [-> | (e & ->)].
    - now apply execAndSucceed_zero.
    - now apply execAndSucceed_throw. }
  assert (Hinstall : forall r w r2 w2,
             exec rt "cargo-release" ["--help"] None (world s) = (r, w) ->
             exited_zero r = false ->
             exec rt "cargo-binstall" ["--help"] None w = (r2, w2) ->
             cargoRelease_invoke rt crate version branchName s
             = (execAndSucceed rt "cargo" [installer r2; "cargo-release"] None ;;;
                execAndSucceed rt "cargo" (release_args version branchName)
                               (Some (CrateDetails.path crate)))
                 {| world := w2; log := (log s ++ notes r2)%list |}).
  { intros r w r2 w2 H1 Hr H2.
    unfold cargoRelease_invoke. unfold bind at 1.
    rewrite (toolExists_spec _ _ H1), Hr. cbn [negb].
    pose proof (@toolExists_spec "cargo-binstall"
                  {| world := w;
                     log := (log s ++ [Warning "cargo-release is not available, attempting to install it"])%list |}
                  r2 w2 H2) as Hprobe.
    unfold notes, installer, release_args.
    unfold warning, info, emit, bind. cbn [world log] in Hprobe |- *.
    rewrite Hprobe.
    destruct (exited_zero r2); cbn [world log];
      rewrite <- app_assoc; reflexivity. }
  split; [|split].
  - intros w rr w' H Hrel Hrr. unfold cargoRelease_invoke. unfold bind at 1.
    rewrite (toolExists_spec _ _ H). cbn [exited_zero Z.eqb negb].
    unfold bind, ret.
    exact (Hfinish {| world := w; log := log s |} rr w' Hrel Hrr).
  - intros r w r2 w2 w3 rr w' H1 Hr H2 H3 Hrel Hrr.
    rewrite (Hinstall _ _ _ _ H1 Hr H2). unfold bind.
    rewrite (@execAndSucceed_zero "cargo" [installer r2; "cargo-release"] None
               {| world := w2; log := (log s ++ notes r2)%list |} w3 H3).
    exact (Hfinish {| world := w3; log := (log s ++ notes r2)%list |} rr w' Hrel Hrr).
  - intros r w r2 w2 e w3 H1 Hr H2 H3.
    rewrite (Hinstall _ _ _ _ H1 Hr H2). unfold bind.
    now rewrite (@execAndSucceed_throw "cargo" [installer r2; "cargo-release"] None
                   {| world := w2; log := (log s ++ notes r2)%list |} e w3 H3).
Qed.

(** ** Opening the pull request *)

(** X10: the request.  A pull request is opened only after the title and
    the body have both been rendered.  Its head is the release branch,
    its base the base branch, and it is modifiable and a draft as the
    inputs say; on success its URL is written to the log and set as the
    output [pr-url].  When the body template cannot be obtained or does
    not render, [makePR] fails with that error in the state reached by
    then, with no request made. *)
Theorem makePR_request inputs crate baseBranch branchName newVersion s :
  let pr := in_pr inputs in
  let vars := initial_vars inputs crate branchName newVersion in
  (forall s',
      makePR rt inputs crate baseBranch branchName newVersion s = (Ok tt, s') ->
      exists title template s1 body url w,
        ejs_render rt (pr_title pr) vars = Ok title
        /\ bodyTemplate rt pr s = (Ok template, s1)
        /\ ejs_render rt template (set_title vars title) = Ok body
        /\ create_pull rt (githubToken inputs)
             {| pull_title := title;
                pull_body := body;
                pull_head := branchName;
                pull_base := baseBranch;
                pull_maintainer_can_modify := pr_modifiable pr;
                pull_draft := pr_draft pr |} (world s1)
           = (Ok url, w)
        /\ s' = {| world := w;
                   log := (log s1 ++ [Info ("PR opened: " ++ url);
                                      SetOutput "pr-url" url])%list |})
  /\ (forall title e s1,
         ejs_render rt (pr_title pr) vars = Ok title ->
         bodyTemplate rt pr s = (Throw e, s1) ->
         makePR rt inputs crate baseBranch branchName newVersion s = (Throw e, s1))
  /\ (forall title template s1 e,
         ejs_render rt (pr_title pr) vars = Ok title ->
         bodyTemplate rt pr s = (Ok template, s1) ->
         ejs_render rt template (set_title vars title) = Throw e ->
         makePR rt inputs crate baseBranch branchName newVersion s = (Throw e, s1)).
Proof.
  intros pr vars.
  assert (Hstart : forall title,
             ejs_render rt (pr_title pr) vars = Ok title ->
             makePR rt inputs crate baseBranch branchName newVersion s
             = open_with_title inputs vars baseBranch branchName title s).
  { intros title Ht. unfold makePR, open_with_title.
    unfold render at 1. unfold bind at 1. unfold pure.
    fold (initial_vars inputs crate branchName newVersion). fold vars. fold pr.
    now rewrite Ht. }
  split; [|split].
  - intros s' H.
    destruct (ejs_render rt (pr_title pr) vars) as [title|e] eqn:Ht.
    2: { unfold makePR in H. unfold render at 1 in H. unfold bind at 1 in H.
         unfold pure in H.
         fold (initial_vars inputs crate branchName newVersion) in H.
         fold vars in H. fold pr in H. rewrite Ht in H. discriminate. }
    rewrite (Hstart title eq_refl) in H. unfold open_with_title in H.
    apply bind_inv in H as (template & s1 & Htpl & H).
    apply bind_inv in H as (body & s2 & Hbody & H).
    unfold render, pure in Hbody. injection Hbody as Hbody <-.
    apply bind_inv in H as (url & s3 & Hurl & H).
    unfold call in Hurl.
    destruct (create_pull rt _ _ (world s1)) as [x w] eqn:Hpull.
    injection Hurl as -> <-.
    unfold bind, info, setOutput, emit in H. injection H as <-.
    exists title, template, s1, body, url, w.
    repeat split; auto. cbn [world log]. now rewrite <- app_assoc.
  - intros title e s1 Ht Htpl. rewrite (Hstart title Ht).
    unfold pr in Htpl. unfold open_with_title, bind. now rewrite Htpl.
  - intros title template s1 e Ht Htpl Hbody. rewrite (Hstart title Ht).
    unfold pr in Htpl. unfold open_with_title. unfold bind at 1. rewrite Htpl.
    unfold bind, render, pure. now rewrite Hbody.
Qed.

(** X11: a template file that cannot be read.  When a template file is
    named and reading it fails, [makePR] fails with that error right
    after the read: neither the inline template nor the default one is
    tried, and no request is made. *)
Theorem unreadable_template_file_is_fatal
        inputs crate baseBranch branchName newVersion s title file e w :
  ejs_render rt (pr_title (in_pr inputs))
             (initial_vars inputs crate branchName newVersion) = Ok title ->
  pr_templateFile (in_pr inputs) = Some file ->
  Str.nonempty file = true ->
  readFile rt file (world s) = (Throw e, w) ->
  makePR rt inputs crate baseBranch branchName newVersion s
  = (Throw e, {| world := w; log := log s |}).
Proof.
  intros Ht Hfile Hne Hread.
  unfold makePR. unfold render at 1. unfold bind at 1. unfold pure.
  fold (initial_vars inputs crate branchName newVersion). rewrite Ht.
  unfold bind at 1. unfold bodyTemplate. rewrite Hfile. cbn [truthy].
  rewrite Hne. unfold bind, call. now rewrite Hread.
Qed.

(** ** The grammar of a member *)

Lemma span_inv p : forall s a b,
  Str.span p s = (a, b) ->
  s = a ++ b
  /\ Str.forallb p a = true
  /\ match b with String c _ => p c = false | EmptyString => True end.
Proof.
  induction s as [|c s IH]; intros a b H; simpl in H.
  - injection H as <- <-. auto.
  - destruct (p c) eqn:Hc.
    + destruct (Str.span p s) as [a0 b0]. injection H as <- <-.
      destruct (IH a0 b0 eq_refl) as (-> & Ha & Hb).
      simpl. rewrite Hc. auto.
    + injection H as <- <-. simpl. auto.
Qed.

Lemma span_app p : forall a b,
  Str.forallb p a = true ->
  match b with String c _ => p c = false | EmptyString => True end ->
  Str.span p (a ++ b) = (a, b).
Proof.
  induction a as [|c a IH]; intros b Ha Hb; simpl.
  - destruct b as [|c r]; [reflexivity|]. simpl. now rewrite Hb.
  - simpl in Ha. apply andb_true_iff in Ha as [Hc Ha].
    now rewrite Hc, (IH b Ha Hb).
Qed.

Lemma strip_prefix_app p : forall r, Str.strip_prefix p (p ++ r) = Some r.
Proof.
  induction p as [|c p IH]; intros r; simpl; [reflexivity|].
  now rewrite Ascii.eqb_refl.
Qed.

Lemma strip_last_app c : forall r, Str.strip_last c (r ++ String c "") = Some r.
Proof.
  induction r as [|a r IH]; simpl.
  - now rewrite Ascii.eqb_refl.
  - rewrite IH. destruct r; reflexivity.
Qed.

Lemma strip_last_inv c : forall s r,
  Str.strip_last c s = Some r -> s = r ++ String c "".
Proof.
  induction s as [|a s IH]; intros r H; [discriminate|].
  simpl in H. destruct s as [|b s].
  - destruct (Ascii.eqb a c) eqn:Hac; [|discriminate].
    apply Ascii.eqb_eq in Hac. injection H as <-. now subst.
  - destruct (Str.strip_last c (String b s)) as [r0|]; [|discriminate].
    injection H as <-. simpl. f_equal. now apply IH.
Qed.

(** X12: the grammar of a member.  The regular expression accepts a string
    with the groups [name], [version] and [url] exactly when the string
    is [name version (path+url)], the name and the version are non-empty
    and free of white space, and the URL is [file://] followed by at
    least one character, none of them a line terminator.  So what it
    accepts can be put together again from the three groups, and any
    three such parts put together are accepted. *)
Theorem member_regex_grammar pkg name version url :
  member_regex pkg = Some (name, version, url)
  <-> exists rest,
      pkg = name ++ " " ++ version ++ " (path+" ++ url ++ ")"
      /\ url = "file://" ++ rest
      /\ Str.nonempty name = true
      /\ Str.forallb (fun c => negb (Str.is_space c)) name = true
      /\ Str.nonempty version = true
      /\ Str.forallb (fun c => negb (Str.is_space c)) version = true
      /\ Str.nonempty rest = true
      /\ Str.forallb (fun c => negb (Str.is_line_terminator c)) rest = true.
Proof.
  unfold member_regex. cbv zeta. split.
  - destruct (Str.span _ pkg) as [n0 r0] eqn:Hs0.
    destruct (Str.nonempty n0) eqn:Hn; cbn [negb]; [|discriminate].
    destruct (Str.strip_prefix " " r0) as [r1|] eqn:Hp1; [|discriminate].
    destruct (Str.span _ r1) as [v0 r2] eqn:Hs1.
    destruct (Str.nonempty v0) eqn:Hv; cbn [negb]; [|discriminate].
    destruct (Str.strip_prefix " (path+" r2) as [r3|] eqn:Hp2; [|discriminate].
    destruct (Str.strip_last ")" r3) as [u0|] eqn:Hl; [|discriminate].
    destruct (Str.strip_prefix "file://" u0) as [r4|] eqn:Hp3; [|discriminate].
    destruct (Str.nonempty r4 && _) eqn:Hr; [|discriminate].
    intros [= <- <- <-].
    apply span_inv in Hs0 as (-> & Hn0 & _).
    apply span_inv in Hs1 as (-> & Hv0 & _).
    apply strip_prefix_spec in Hp1, Hp2, Hp3.
    apply strip_last_inv in Hl. apply andb_true_iff in Hr as [Hr1 Hr2].
    exists r4. subst. repeat split; auto.
  - intros (rest & -> & -> & Hn & Hn0 & Hv & Hv0 & Hr & Hr0).
    rewrite (span_app _ name (" " ++ version ++ " (path+" ++ ("file://" ++ rest) ++ ")"))
      by (auto; reflexivity).
    rewrite Hn. cbn [negb].
    rewrite (strip_prefix_app " ").
    rewrite (span_app _ version (" (path+" ++ ("file://" ++ rest) ++ ")"))
      by (auto; reflexivity).
    rewrite Hv. cbn [negb].
    rewrite (strip_prefix_app " (path+").
    rewrite strip_last_app, (strip_prefix_app "file://"), Hr, Hr0.
    reflexivity.
Qed.

(** ** The run as a whole *)

Lemma execAndSucceed_at program args cwd w l w' :
  exec rt program args cwd w = (Ok 0%Z, w') ->
  execAndSucceed rt program args cwd {| world := w; log := l |}
  = (Ok tt, {| world := w'; log := l |}).
Proof.
  intros H. unfold execAndSucceed, bind, call. cbn [world log]. now rewrite H.
Qed.

Lemma execAndSucceed_ok program args cwd s s' :
  execAndSucceed rt program args cwd s = (Ok tt, s') ->
  exists w,
    exec rt program args cwd (world s) = (Ok 0%Z, w)
    /\ s' = {| world := w; log := log s |}.
Proof.
  intros H. apply execAndSucceed_inv in H as [H L]. exists (world s').
  split; [exact H|]. destruct s' as [w l]. cbn [world log] in *. now subst.
Qed.

(** X13: the commands of a successful run.  A run succeeds exactly when
    the following happen one after the other, each in the world the
    previous one left: the inputs are read; [git config user.name] and
    [git config user.email] exit with code zero; the base branch is the
    one of the inputs when that is given and not empty, and otherwise
    the default branch GitHub reports; [git switch -c] creates the
    branch named after the requested version; the crate is resolved;
    the release returns a new version; [git push origin] of that branch
    exits with code zero; and the pull request is made for the crate as
    it was resolved before the release, the base branch, the branch and
    the version the release returned. *)
Theorem run_data_flow s s' :
  run rt s = (Ok tt, s') <->
  exists inputs w0 w1 w2 base w3 w4 crate s5 newVersion s6 w7,
    let git := in_git inputs in
    let branch :=
      git_branchPrefix git ++ git_branchSeparator git ++ in_version inputs in
    getInputs rt (world s) = (Ok inputs, w0)
    /\ exec rt "git" ["config"; "user.name"; git_name git] None w0 = (Ok 0%Z, w1)
    /\ exec rt "git" ["config"; "user.email"; git_email git] None w1 = (Ok 0%Z, w2)
    /\ (if truthy (baseBranch inputs)
        then baseBranch inputs = Some base /\ w3 = w2
        else get_default_branch rt (githubToken inputs) w2 = (Ok base, w3))
    /\ exec rt "git" ["switch"; "-c"; branch] None w3 = (Ok 0%Z, w4)
    /\ findCrate rt (in_crate inputs)
         {| world := w4;
            log := (log s
                    ++ [Info ("Setting git user details: " ++ git_name git
                              ++ " <" ++ git_email git ++ ">");
                        Info ("Creating branch " ++ branch);
                        SetOutput "pr-branch" branch])%list |}
       = (Ok crate, s5)
    /\ runCargoRelease rt crate (in_version inputs) branch s5 = (Ok newVersion, s6)
    /\ exec rt "git" ["push"; "origin"; branch] None (world s6) = (Ok 0%Z, w7)
    /\ makePR rt inputs crate base branch newVersion
         {| world := w7; log := log s6 |}
       = (Ok tt, s').
Proof.
  assert (Hname : forall v g,
             Str.join (git_branchSeparator g) [git_branchPrefix g; v]
             = git_branchPrefix g ++ git_branchSeparator g ++ v)
    by reflexivity.
  split.
  - intros H. unfold run in H.
    apply bind_inv in H as (inputs & s0 & Hin & H).
    unfold call in Hin. destruct (getInputs rt (world s)) as [x w0] eqn:Hget.
    injection Hin as -> <-.
    apply bind_inv in H as ([] & su & Huser & H).
    unfold setGithubUser, info in Huser.
    apply bind_inv in Huser as ([] & sa & Ha & Huser). injection Ha as <-.
    apply bind_inv in Huser as ([] & sb & Hb & Huser).
    apply execAndSucceed_ok in Hb as (w1 & Hb & ->). cbn [world log] in *.
    apply execAndSucceed_ok in Huser as (w2 & Huser & ->). cbn [world log] in *.
    apply bind_inv in H as (base & sc & Hbase & H).
    apply bind_inv in H as (b & sd & Hbr & H).
    unfold makeBranch, info, setOutput in Hbr. rewrite Hname in Hbr.
    apply bind_inv in Hbr as ([] & se & He & Hbr). injection He as <-.
    apply bind_inv in Hbr as ([] & sf & Hf & Hbr).
    apply execAndSucceed_ok in Hf as (w4 & Hf & ->). cbn [world log] in *.
    apply bind_inv in Hbr as ([] & sg & Hg & Hbr). injection Hg as <-.
    injection Hbr as <- <-.
    apply bind_inv in H as (crate & s5 & Hc & H).
    apply bind_inv in H as (nv & s6 & Hr & H).
    apply bind_inv in H as ([] & s7 & Hpush & H).
    unfold pushBranch in Hpush.
    apply execAndSucceed_ok in Hpush as (w7 & Hpush & ->).
    exists inputs, w0, w1, w2, base, (world sc), w4, crate, s5, nv, s6, w7.
    cbn zeta. repeat split; auto.
    + destruct (truthy (baseBranch inputs)) eqn:Ht.
      * destruct (baseBranch inputs) as [x|]; [|discriminate].
        injection Hbase as -> <-. auto.
      * assert (Hd : getDefaultBranch rt (githubToken inputs)
                       {| world := w2;
                          log := (log s ++ [Info ("Setting git user details: "
                                                  ++ git_name (in_git inputs) ++ " <"
                                                  ++ git_email (in_git inputs) ++ ">")])%list |}
                     = (Ok base, sc))
          by (destruct (baseBranch inputs); exact Hbase).
        unfold getDefaultBranch, call in Hd. cbn [world log] in Hd.
        destruct (get_default_branch rt (githubToken inputs) w2) as [y w3].
        now injection Hd as -> <-.
    + assert (Hlog : log sc = (log s ++ [Info ("Setting git user details: "
                                              ++ git_name (in_git inputs) ++ " <"
                                              ++ git_email (in_git inputs) ++ ">")])%list).
      { destruct (truthy (baseBranch inputs)), (baseBranch inputs);
          try (now injection Hbase as _ <-);
          unfold getDefaultBranch, call in Hbase; cbn [world log] in Hbase;
          destruct (get_default_branch rt (githubToken inputs) w2);
          now injection Hbase as _ <-. }
      rewrite Hlog, <- !app_assoc in Hc. exact Hc.
  - intros (inputs & w0 & w1 & w2 & base & w3 & w4 & crate & s5 & nv & s6 & w7
            & Hget & Hn & He & Hbase & Hsw & Hc & Hr & Hpush & Hpr).
    cbn zeta in *. unfold run. unfold bind at 1. unfold call. rewrite Hget.
    unfold bind at 1.
    assert (Huser : setGithubUser rt (in_git inputs) {| world := w0; log := log s |}
                    = (Ok tt,
                       {| world := w2;
                          log := (log s ++ [Info ("Setting git user details: "
                                                  ++ git_name (in_git inputs) ++ " <"
                                                  ++ git_email (in_git inputs) ++ ">")])%list |})).
    { unfold setGithubUser, info, emit. unfold bind at 1. unfold bind at 1.
      cbn [world log]. rewrite (@execAndSucceed_at _ _ _ _ _ _ Hn).
      exact (@execAndSucceed_at _ _ _ _ _ _ He). }
    rewrite Huser. unfold bind at 1.
    assert (Hb : (if truthy (baseBranch inputs)
                  then match baseBranch inputs with
                       | Some b => ret b
                       | None => getDefaultBranch rt (githubToken inputs)
                       end
                  else getDefaultBranch rt (githubToken inputs))
                   {| world := w2;
                      log := (log s ++ [Info ("Setting git user details: "
                                              ++ git_name (in_git inputs) ++ " <"
                                              ++ git_email (in_git inputs) ++ ">")])%list |}
                 = (Ok base,
                    {| world := w3;
                       log := (log s ++ [Info ("Setting git user details: "
                                               ++ git_name (in_git inputs) ++ " <"
                                               ++ git_email (in_git inputs) ++ ">")])%list |})).
    { destruct (truthy (baseBranch inputs)).
      - destruct Hbase as [-> ->]. reflexivity.
      - unfold getDefaultBranch, call. cbn [world log]. now rewrite Hbase. }
    rewrite Hb. unfold bind at 1.
    assert (Hmk : makeBranch rt (in_version inputs) (in_git inputs)
                    {| world := w3;
                       log := (log s ++ [Info ("Setting git user details: "
                                               ++ git_name (in_git inputs) ++ " <"
                                               ++ git_email (in_git inputs) ++ ">")])%list |}
                  = (Ok (git_branchPrefix (in_git inputs)
                         ++ git_branchSeparator (in_git inputs) ++ in_version inputs),
                     {| world := w4;
                        log := (log s
                                ++ [Info ("Setting git user details: "
                                          ++ git_name (in_git inputs) ++ " <"
                                          ++ git_email (in_git inputs) ++ ">");
                                    Info ("Creating branch "
                                          ++ (git_branchPrefix (in_git inputs)
                                              ++ git_branchSeparator (in_git inputs)
                                              ++ in_version inputs));
                                    SetOutput "pr-branch"
                                      (git_branchPrefix (in_git inputs)
                                       ++ git_branchSeparator (in_git inputs)
                                       ++ in_version inputs)])%list |})).
    { unfold makeBranch, info, setOutput, emit. rewrite Hname.
      unfold bind at 1. unfold bind at 1. cbn [world log].
      rewrite (@execAndSucceed_at _ _ _ _ _ _ Hsw).
      unfold bind, ret. cbn [world log]. now rewrite <- !app_assoc. }
    rewrite Hmk. unfold bind at 1. rewrite Hc.
    unfold bind at 1. rewrite Hr.
    unfold bind. unfold pushBranch.
    destruct s6 as [w6 l6]. cbn [world log] in *.
    rewrite (@execAndSucceed_at _ _ _ _ _ _ Hpush).
    exact Hpr.
Qed.

End Properties.

(** * The action at work in the simulated world *)

Example normalize_redundant : Path.normalize "./pkg/../pkg" = "pkg".
Proof. reflexivity. Qed.

Example normalize_absolute : Path.normalize "/ws/./pkg/../pkg/" = "/ws/pkg/".
Proof. reflexivity. Qed.

Example normalize_above_root :
  Path.normalize "../../a/./b/..//c" = "../../a/c" /\ Path.normalize "/../a" = "/a".
Proof. split; reflexivity. Qed.

Example trim_blank : Str.trim "  " = "" /\ Str.trim " a b  " = "a b".
Proof. split; reflexivity. Qed.

Example json_roundtrip :
  Sim.workspace_members (Sim.metadata_json ["a 1.0.0 (path+file:///a)"; "junk"])
  = Ok ["a 1.0.0 (path+file:///a)"; "junk"]
  /\ Sim.workspace_members (Sim.metadata_json []) = Ok [].
Proof. split; reflexivity. Qed.

Lemma well_formed_a : well_formed Sim.rt Sim.member_a Sim.crate_a.
Proof.
  exists "file:///ws/a", {| protocol := "file:"; pathname := "/ws/a" |}.
  repeat split; reflexivity.
Defined.

Lemma lists_listing pkgs :
  workspace_members Sim.rt (Sim.metadata_json pkgs) = Ok pkgs ->
  lists Sim.rt (Sim.start (Sim.listing pkgs)) pkgs
        (Sim.queried (Sim.start (Sim.listing pkgs))).
Proof.
  intros H. exists (Sim.metadata_json pkgs), (world (Sim.queried (Sim.start (Sim.listing pkgs)))).
  repeat split. exact H.
Defined.

(** The two hints disagree: the name is that of the second member, the
    path that of the first, and the first member is returned. *)
Lemma both_hints_first_match_witness :
  Str.nonempty "b" = true
  /\ Str.nonempty "/ws/a" = true
  /\ fst (findCrate Sim.rt (CrateArgs.make (Some "b") (Some "/ws/a"))
                    (Sim.start (Sim.listing [Sim.member_a; Sim.member_b])))
     = Ok Sim.crate_a.
Proof.
  split; [reflexivity|]. split; [reflexivity|].
  destruct (@both_hints_first_match _ Sim.rt "b" "/ws/a" _ _ _ Sim.crate_a
              eq_refl eq_refl
              (@lists_listing [Sim.member_a; Sim.member_b] eq_refl))
    as [Hiff Hfind].
  rewrite Hfind. apply Hiff.
  exists [], Sim.member_a, [Sim.member_b].
  repeat split; [constructor | apply well_formed_a | right; reflexivity].
Defined.

(** C4 fails as stated: the listing has exactly one member, no hint is
    given, and resolution fails because that member is malformed. *)
Lemma single_malformed_member_fails :
  length only_malformed = 1
  /\ fst (pkgid Sim.rt CrateArgs.none (Sim.start (Sim.listing only_malformed)))
     = Throw (JsError "no good crate found").
Proof. split; reflexivity. Qed.

Lemma no_hint_single_member_witness :
  truthy (CrateArgs.name CrateArgs.none) = false
  /\ truthy (CrateArgs.path CrateArgs.none) = false
  /\ fst (pkgid Sim.rt CrateArgs.none (Sim.start (Sim.listing [Sim.member_a])))
     = Ok Sim.crate_a
  /\ fst (pkgid Sim.rt CrateArgs.none
                (Sim.start (Sim.listing [Sim.member_a; Sim.member_b])))
     = Throw (JsError "no matching crate found").
Proof.
  split; [reflexivity|]. split; [reflexivity|]. split.
  - apply (proj1 (@no_hint_single_member _ Sim.rt CrateArgs.none _ _ _
                    eq_refl eq_refl (@lists_listing [Sim.member_a] eq_refl))).
    exists Sim.member_a. split; [reflexivity | apply well_formed_a].
  - apply (proj2 (@no_hint_single_member _ Sim.rt CrateArgs.none _ _ _
                    eq_refl eq_refl
                    (@lists_listing [Sim.member_a; Sim.member_b] eq_refl))).
    simpl. lia.
Defined.

Lemma malformed_garbled : malformed garbled.
Proof. reflexivity. Defined.

(** C6 fails as stated: of the two members listed one is well formed
    and one is not, no hint is given, and resolution fails. *)
Lemma malformed_member_fatal_without_hint :
  well_formed Sim.rt Sim.member_a Sim.crate_a
  /\ malformed garbled
  /\ fst (pkgid Sim.rt CrateArgs.none
                (Sim.start (Sim.listing [Sim.member_a; garbled])))
     = Throw (JsError "no matching crate found").
Proof.
  split; [apply well_formed_a|]. split; reflexivity.
Qed.

Lemma malformed_member_skipped_witness :
  truthy (CrateArgs.name (Sim.by_name "a"))
  || truthy (CrateArgs.path (Sim.by_name "a")) = true
  /\ malformed garbled
  /\ fst (pkgid Sim.rt (Sim.by_name "a")
                (Sim.start (Sim.listing [garbled; Sim.member_a])))
     = Ok Sim.crate_a
  /\ log (snd (pkgid Sim.rt (Sim.by_name "a")
                     (Sim.start (Sim.listing [garbled; Sim.member_a]))))
     = [skip_warning garbled].
Proof.
  split; [reflexivity|]. split; [reflexivity|]. split; [|reflexivity].
  eapply (proj2 (proj2 (@malformed_member_skipped _ Sim.rt (Sim.by_name "a") garbled
                          eq_refl malformed_garbled))).
  - apply well_formed_a.
  - reflexivity.
  - right. apply (@lists_listing [garbled; Sim.member_a] eq_refl).
Defined.

(** C8 fails as stated: resolution returns a crate whose path holds no
    manifest, and nothing at all. *)
Lemma resolved_path_unchecked :
  fst (pkgid Sim.rt CrateArgs.none (Sim.start (Sim.listing nowhere)))
  = Ok (CrateDetails.make "foo" "/nowhere" "1.0.0")
  /\ Sim.has_manifest (Sim.listing nowhere) "/nowhere" = false
  /\ Sim.nothing_at (Sim.listing nowhere) "/nowhere" = true.
Proof. repeat split; reflexivity. Qed.

Lemma resolved_details_witness :
  pkgid Sim.rt (Sim.by_name "b")
        (Sim.start (Sim.listing [Sim.member_a; Sim.member_b]))
  = (Ok Sim.crate_b,
     Sim.queried (Sim.start (Sim.listing [Sim.member_a; Sim.member_b])))
  /\ exists pkgs s1 pkg,
      lists Sim.rt (Sim.start (Sim.listing [Sim.member_a; Sim.member_b])) pkgs s1
      /\ In pkg pkgs
      /\ well_formed Sim.rt pkg Sim.crate_b
      /\ Str.nonempty (CrateDetails.version Sim.crate_b) = true
      /\ Str.nonempty (CrateDetails.name Sim.crate_b) = true
      /\ (truthy (CrateArgs.name (Sim.by_name "b"))
          || truthy (CrateArgs.path (Sim.by_name "b")) = true ->
          hint_matches (Sim.by_name "b") Sim.crate_b = true).
Proof.
  split; [reflexivity|].
  apply (proj1 (@resolved_details _ Sim.rt (Sim.by_name "b")
                  (Sim.start (Sim.listing [Sim.member_a; Sim.member_b])))
           Sim.crate_b
           (Sim.queried (Sim.start (Sim.listing [Sim.member_a; Sim.member_b])))).
  reflexivity.
Defined.

(** C1: the path hint is compared as given.  Whatever crate a path
    hint alone resolves to has exactly the hint as its path, while member
    paths are normalized.  So here, where the normal form of the hint is
    the path of the second member, resolution finds that member by the
    normal form but not by the hint as given. *)
Theorem path_hint_not_normalized :
  (forall World (rt : Runtime World) p s d s',
      Str.nonempty p = true ->
      pkgid rt (Sim.by_path p) s = (Ok d, s') -> CrateDetails.path d = p)
  /\ Path.normalize redundant_path = "/ws/b"
  /\ fst (pkgid Sim.rt (Sim.by_path "/ws/b")
                (Sim.start (Sim.listing [Sim.member_a; Sim.member_b])))
     = Ok Sim.crate_b
  /\ fst (pkgid Sim.rt (Sim.by_path redundant_path)
                (Sim.start (Sim.listing [Sim.member_a; Sim.member_b])))
     = Throw (JsError "no matching crate found").
Proof.
  split; [|repeat split; reflexivity].
  intros World rt p s d s' Hp H.
  assert (Hm : hint_matches (Sim.by_path p) d = true)
    by (eapply pkgid_matches_hint; [exact H | simpl; exact Hp]).
  apply hint_matches_spec in Hm as [(n & [=] & _) | (q & [= <-] & _ & Hq)].
  now symmetry.
Qed.

Lemma path_hint_not_normalized_witness :
  Str.nonempty "/ws/b" = true
  /\ pkgid Sim.rt (Sim.by_path "/ws/b")
        (Sim.start (Sim.listing [Sim.member_a; Sim.member_b]))
  = (Ok Sim.crate_b,
     Sim.queried (Sim.start (Sim.listing [Sim.member_a; Sim.member_b])))
  /\ CrateDetails.path Sim.crate_b = "/ws/b".
Proof.
  split; [reflexivity|]. split; [vm_compute; reflexivity|].
  apply (proj1 path_hint_not_normalized _ Sim.rt "/ws/b"
           (Sim.start (Sim.listing [Sim.member_a; Sim.member_b])) Sim.crate_b
           (Sim.queried (Sim.start (Sim.listing [Sim.member_a; Sim.member_b])))).
  - reflexivity.
  - vm_compute; reflexivity.
Defined.

Lemma sim_URL_protocol rest u :
  URL Sim.rt ("file://" ++ rest) = Ok u -> protocol u = "file:".
Proof.
  change (URL Sim.rt) with Sim.URL. unfold Sim.URL.
  destruct (Str.strip_prefix "file://" ("file://" ++ rest)) as [[|c p]|];
    try discriminate.
  destruct (Ascii.eqb c "/") eqn:Hc.
  - apply Ascii.eqb_eq in Hc. subst c.
    destruct (_ && _); [|discriminate]. now intros [= <-].
  - destruct c as [[] [] [] [] [] [] [] []]; try discriminate.
Defined.

(** C7: a member whose URL is not a file URL does not match the
    grammar, so it is skipped with a warning like any malformed member,
    and resolution goes on to return a later member.  The check of the
    protocol cannot fail: with a [new URL] that reports the protocol of a
    [file://] URL as [file:], [parseWorkspacePkg] fails only where
    [new URL] does. *)
Theorem non_local_member_skipped :
  (forall World (rt : Runtime World),
      (forall rest u, URL rt ("file://" ++ rest) = Ok u -> protocol u = "file:") ->
      forall pkg s e s',
        parseWorkspacePkg rt pkg s = (Throw e, s') ->
        exists n v url, member_regex pkg = Some (n, v, url) /\ URL rt url = Throw e)
  /\ malformed remote_member
  /\ pkgid Sim.rt (Sim.by_name "b")
           (Sim.start (Sim.listing [remote_member; Sim.member_b]))
     = (Ok Sim.crate_b,
        logged (Sim.queried (Sim.start (Sim.listing [remote_member; Sim.member_b])))
               (skip_warning remote_member)).
Proof.
  split; [|split; reflexivity].
  intros World rt Hfile pkg s e s' H.
  eapply non_local_check_unreachable; eassumption.
Qed.

Lemma non_local_member_skipped_witness :
  parseWorkspacePkg Sim.rt unparsable_url (Sim.start idle)
  = (Throw (JsError "Invalid URL"), Sim.start idle)
  /\ exists n v url,
      member_regex unparsable_url = Some (n, v, url)
      /\ URL Sim.rt url = Throw (JsError "Invalid URL").
Proof.
  split; [reflexivity|].
  apply (proj1 non_local_member_skipped _ Sim.rt sim_URL_protocol
           unparsable_url (Sim.start idle) (JsError "Invalid URL") (Sim.start idle)).
  reflexivity.
Defined.


(** C3 fails as stated: a template file is given, and the template used
    is not its contents but the default one. *)
Lemma blank_template_file_falls_back :
  pr_templateFile (in_pr (Sim.given blank_file)) = Some "/repo/pr.ejs"
  /\ fst (readFile Sim.rt "/repo/pr.ejs" blank_file) = Ok "  "
  /\ fst (bodyTemplate Sim.rt (in_pr (Sim.given blank_file)) (Sim.start blank_file))
     = Ok Sim.default_template
  /\ Sim.default_template <> "  ".
Proof. repeat split; try reflexivity. discriminate. Qed.

(** Both a file and an inline template are given: the file is used. *)
Lemma body_template_source_witness :
  pr_templateFile (in_pr (Sim.given with_file)) = Some "/repo/pr.ejs"
  /\ Str.nonempty "/repo/pr.ejs" = true
  /\ bodyTemplate Sim.rt (in_pr (Sim.given with_file)) (Sim.start with_file)
     = (Ok "Release <%= version.actual %>", Sim.start with_file).
Proof.
  split; [reflexivity|]. split; [reflexivity|].
  apply (proj1 (@body_template_source _ Sim.rt (in_pr (Sim.given with_file))
                  (Sim.start with_file))
           "/repo/pr.ejs" "Release <%= version.actual %>" with_file
           eq_refl eq_refl eq_refl).
Defined.

(** The simulated ejs renders the title template of the example as ejs
    does. *)
Lemma sim_renders_title v :
  vars_crate_name v = "foo" ->
  vars_version_actual v = "1.2.3" ->
  ejs_render Sim.rt "release: <%= crate.name %> v<%= version.actual %>" v
  = Ok "release: foo v1.2.3".
Proof.
  intros Hn Hv. change (ejs_render Sim.rt) with Ejs.render.
  unfold Ejs.render.
  change (Ejs.pieces "release: <%= crate.name %> v<%= version.actual %>"
                     Ejs.Text "" [])
    with (Some [Ejs.Literal "release: "; Ejs.Output true "crate.name";
                Ejs.Literal " v"; Ejs.Output true "version.actual";
                Ejs.Literal ""]).
  cbn [Ejs.output]. unfold Ejs.lookup. cbn [String.eqb Ascii.eqb Bool.eqb].
  cbn [Ejs.show]. rewrite Hn, Hv. reflexivity.
Defined.

(** The pull request opened for [foo] 1.2.3, with a body template given
    inline that outputs [title]: its title is [release: foo v1.2.3] and
    so is its body. *)
Lemma title_rendered_first_witness :
  pr_title (in_pr inline_inputs) = "release: <%= crate.name %> v<%= version.actual %>"
  /\ CrateDetails.name crate_foo = "foo"
  /\ makePR Sim.rt inline_inputs crate_foo "main" "release/patch" "1.2.3"
            (Sim.start inline_world)
     = (Ok tt, snd (makePR Sim.rt inline_inputs crate_foo "main" "release/patch"
                           "1.2.3" (Sim.start inline_world)))
  /\ Sim.pulls (world (snd (makePR Sim.rt inline_inputs crate_foo "main"
                                   "release/patch" "1.2.3" (Sim.start inline_world))))
     = [{| pull_title := "release: foo v1.2.3";
           pull_body := "release: foo v1.2.3";
           pull_head := "release/patch";
           pull_base := "main";
           pull_maintainer_can_modify := true;
           pull_draft := false |}]
  /\ exists template s1 body url w,
      bodyTemplate Sim.rt (in_pr inline_inputs) (Sim.start inline_world)
      = (Ok template, s1)
      /\ ejs_render Sim.rt template
           {| vars_pr := in_pr inline_inputs;
              vars_crate_name := CrateDetails.name crate_foo;
              vars_crate_path := CrateDetails.path crate_foo;
              vars_version_previous := CrateDetails.version crate_foo;
              vars_version_actual := "1.2.3";
              vars_version_desired := in_version inline_inputs;
              vars_branchName := "release/patch";
              vars_title := Some "release: foo v1.2.3" |}
         = Ok body
      /\ create_pull Sim.rt (githubToken inline_inputs)
           {| pull_title := "release: foo v1.2.3";
              pull_body := body;
              pull_head := "release/patch";
              pull_base := "main";
              pull_maintainer_can_modify := pr_modifiable (in_pr inline_inputs);
              pull_draft := pr_draft (in_pr inline_inputs) |} (world s1)
         = (Ok url, w)
      /\ snd (makePR Sim.rt inline_inputs crate_foo "main" "release/patch" "1.2.3"
                     (Sim.start inline_world))
         = {| world := w;
              log := (log s1 ++ [Info ("PR opened: " ++ url);
                                 SetOutput "pr-url" url])%list |}.
Proof.
  assert (H : makePR Sim.rt inline_inputs crate_foo "main" "release/patch" "1.2.3"
                     (Sim.start inline_world)
              = (Ok tt, snd (makePR Sim.rt inline_inputs crate_foo "main"
                                    "release/patch" "1.2.3" (Sim.start inline_world))))
    by (vm_compute; reflexivity).
  split; [reflexivity|]. split; [reflexivity|]. split; [exact H|].
  split; [vm_compute; reflexivity|].
  destruct (@title_rendered_first _ Sim.rt inline_inputs crate_foo "main"
              "release/patch" "1.2.3" (Sim.start inline_world))
    as (_ & _ & _ & _ & Hexample).
  exact (proj2 (Hexample sim_renders_title eq_refl eq_refl eq_refl) _ H).
Defined.

(** The branch of a [patch] release is [release/patch], and the run that
    makes it releases 2.0.1. *)
Lemma branch_named_after_requested_version_witness :
  fst (makeBranch Sim.rt "patch" (in_git (Sim.given bumping)) (Sim.start bumping))
  = Ok "release/patch"
  /\ fst (run Sim.rt (Sim.start bumping)) = Ok tt
  /\ exists inputs s1 s2 crate s3 newVersion s4,
      fst (getInputs Sim.rt (world (Sim.start bumping))) = Ok inputs
      /\ makeBranch Sim.rt (in_version inputs) (in_git inputs) s1
         = (Ok (git_branchPrefix (in_git inputs)
                ++ git_branchSeparator (in_git inputs) ++ in_version inputs), s2)
      /\ findCrate Sim.rt (in_crate inputs) s2 = (Ok crate, s3)
      /\ runCargoRelease Sim.rt crate (in_version inputs)
           (git_branchPrefix (in_git inputs)
            ++ git_branchSeparator (in_git inputs) ++ in_version inputs) s3
         = (Ok newVersion, s4).
Proof.
  split; [|split; [vm_compute; reflexivity|]].
  - assert (Hexec : exec Sim.rt "git" ["switch"; "-c"; "release/patch"] None
                         (world (Sim.start bumping))
                    = (Ok 0%Z,
                       Sim.ran ("git", ["switch"; "-c"; "release/patch"], None) bumping))
      by (vm_compute; reflexivity).
    rewrite (proj1 (@branch_named_after_requested_version _ Sim.rt "patch"
                      (in_git (Sim.given bumping)) (Sim.start bumping))
               _ Hexec).
    reflexivity.
  - assert (Hrun : run Sim.rt (Sim.start bumping)
                   = (Ok tt, snd (run Sim.rt (Sim.start bumping))))
      by (vm_compute; reflexivity).
    exact (proj2 (proj2 (@branch_named_after_requested_version _ Sim.rt "patch"
                           (in_git (Sim.given bumping)) (Sim.start bumping)))
             _ Hrun).
Defined.

(** ** Further properties at work *)

Lemma well_formed_member_b : well_formed Sim.rt Sim.member_b Sim.crate_b.
Proof.
  exists "file:///ws/b", {| protocol := "file:"; pathname := "/ws/b" |}.
  repeat split; reflexivity.
Defined.


(** Nothing is released in [idle] and no hint is given: the run fails
    and [main] reports it. *)
Lemma main_reports_failure_witness :
  run Sim.rt (Sim.start idle)
  = (Throw (JsError "no matching crate found"), snd (run Sim.rt (Sim.start idle)))
  /\ main Sim.rt (Sim.start idle)
     = (Ok tt,
        logged (snd (run Sim.rt (Sim.start idle)))
               (SetFailed "no matching crate found")).
Proof.
  assert (H : run Sim.rt (Sim.start idle)
              = (Throw (JsError "no matching crate found"),
                 snd (run Sim.rt (Sim.start idle))))
    by (vm_compute; reflexivity).
  split; [exact H|].
  exact (proj2 (proj2 (@main_reports_failure _ Sim.rt (Sim.start idle))) _ _ H).
Defined.

(** By the name [a], the second member is returned after a warning for
    the first, which is malformed. *)
Lemma pkgid_effects_witness :
  truthy (CrateArgs.name (Sim.by_name "a"))
  || truthy (CrateArgs.path (Sim.by_name "a")) = true
  /\ Forall (passed_over Sim.rt (Sim.by_name "a")) [garbled]
  /\ hint_matches (Sim.by_name "a") Sim.crate_a = true
  /\ pkgid Sim.rt (Sim.by_name "a") (Sim.start (Sim.listing [garbled; Sim.member_a]))
     = (Ok Sim.crate_a,
        {| world := world (Sim.queried (Sim.start (Sim.listing [garbled; Sim.member_a])));
           log := (log (Sim.start (Sim.listing [garbled; Sim.member_a]))
                   ++ skip_warnings [garbled])%list |})
  /\ skip_warnings [garbled] = [skip_warning garbled].
Proof.
  assert (Hb : Forall (passed_over Sim.rt (Sim.by_name "a")) [garbled])
    by (constructor; [left; exact malformed_garbled | constructor]).
  split; [reflexivity|]. split; [exact Hb|]. split; [reflexivity|].
  split; [|reflexivity].
  destruct (@pkgid_effects _ Sim.rt (Sim.by_name "a") _ _ _
              (@lists_listing [garbled; Sim.member_a] eq_refl))
    as (_ & _ & Hhinted & _).
  exact (proj1 (Hhinted eq_refl) [garbled] Sim.member_a [] Sim.crate_a
           eq_refl Hb well_formed_a eq_refl).
Defined.

(** By the name [b] alone, the second member is found. *)
Lemma single_hint_first_match_witness :
  Str.nonempty "b" = true
  /\ fst (pkgid Sim.rt (CrateArgs.make (Some "b") None)
                (Sim.start (Sim.listing [Sim.member_a; Sim.member_b])))
     = Ok Sim.crate_b.
Proof.
  split; [reflexivity|].
  apply (proj1 (@single_hint_first_match _ Sim.rt "b" _ _ _ Sim.crate_b eq_refl
                  (@lists_listing [Sim.member_a; Sim.member_b] eq_refl))).
  exists [Sim.member_a], Sim.member_b, [].
  repeat split; [|apply well_formed_member_b].
  constructor; [|constructor]. right. exists Sim.crate_a.
  split; [apply well_formed_a | discriminate].
Defined.

(** The member searched for comes second, after one whose URL does not
    parse: resolution fails. *)
Lemma unparsable_url_is_fatal_witness :
  truthy (CrateArgs.name (Sim.by_name "b"))
  || truthy (CrateArgs.path (Sim.by_name "b")) = true
  /\ member_regex unparsable_url = Some ("x", "1.0.0", "file://a b/x")
  /\ URL Sim.rt "file://a b/x" = Throw (JsError "Invalid URL")
  /\ fst (pkgid Sim.rt (Sim.by_name "b")
                (Sim.start (Sim.listing [unparsable_url; Sim.member_b])))
     = Throw (JsError "Invalid URL").
Proof.
  split; [reflexivity|]. split; [reflexivity|]. split; [reflexivity|].
  apply (@unparsable_url_is_fatal _ Sim.rt (Sim.by_name "b") _ [] unparsable_url
           [Sim.member_b] _ "x" "1.0.0" "file://a b/x" (JsError "Invalid URL")
           eq_refl (@lists_listing [unparsable_url; Sim.member_b] eq_refl)
           (Forall_nil _) eq_refl eq_refl).
Defined.

(** Both hints are given and no member matches either: the error is
    thrown again after the line about a conflict. *)
Lemma findCrate_dispatch_witness :
  pkgid Sim.rt (effective_hints no_such_crate) (Sim.start idle)
  = (Throw (JsError "no matching crate found"), Sim.queried (Sim.start idle))
  /\ findCrate Sim.rt no_such_crate (Sim.start idle)
     = (Throw (JsError "no matching crate found"),
        logged (Sim.queried (Sim.start idle))
               (Error "crate-name and crate-path conflict; prefer only specifying one or fix the mismatch.")).
Proof.
  assert (H : pkgid Sim.rt (effective_hints no_such_crate) (Sim.start idle)
              = (Throw (JsError "no matching crate found"),
                 Sim.queried (Sim.start idle)))
    by (vm_compute; reflexivity).
  split; [exact H|].
  exact (proj2 (@findCrate_dispatch _ Sim.rt no_such_crate (Sim.start idle)) _ _ H).
Defined.

(** On a machine with neither tool, both probes fail: [cargo install]
    runs and the release follows; where the installer cannot run, the
    release command never starts. *)
Lemma install_fallback_witness :
  exited_zero (fst (exec Sim.rt "cargo-release" ["--help"] None (world (Sim.start bare))))
  = false
  /\ fst (cargoRelease_invoke Sim.rt Sim.crate_b "patch" "release/patch" (Sim.start bare))
     = Ok tt
  /\ Sim.processes
       (world (snd (cargoRelease_invoke Sim.rt Sim.crate_b "patch" "release/patch"
                                        (Sim.start bare))))
     = [("cargo-release", ["--help"], None);
        ("cargo-binstall", ["--help"], None);
        ("cargo", ["install"; "cargo-release"], None);
        ("cargo", release_args "patch" "release/patch", Some "/ws/b")]
  /\ fst (cargoRelease_invoke offline Sim.crate_b "patch" "release/patch" (Sim.start bare))
     = Throw no_network
  /\ Sim.processes
       (world (snd (cargoRelease_invoke offline Sim.crate_b "patch" "release/patch"
                                        (Sim.start bare))))
     = [("cargo-release", ["--help"], None);
        ("cargo-binstall", ["--help"], None);
        ("cargo", ["install"; "cargo-release"], None)].
Proof.
  split; [reflexivity|].
  assert (H1 : exec Sim.rt "cargo-release" ["--help"] None (world (Sim.start bare))
               = (Throw (JsError "Unable to locate executable file: cargo-release"),
                  Sim.ran ("cargo-release", ["--help"], None) bare))
    by (vm_compute; reflexivity).
  assert (H2 : exec Sim.rt "cargo-binstall" ["--help"] None
                    (Sim.ran ("cargo-release", ["--help"], None) bare)
               = (Throw (JsError "Unable to locate executable file: cargo-binstall"),
                  Sim.ran ("cargo-binstall", ["--help"], None)
                          (Sim.ran ("cargo-release", ["--help"], None) bare)))
    by (vm_compute; reflexivity).
  assert (H3 : exec Sim.rt "cargo" ["install"; "cargo-release"] None
                    (Sim.ran ("cargo-binstall", ["--help"], None)
                             (Sim.ran ("cargo-release", ["--help"], None) bare))
               = (Ok 0%Z,
                  snd (exec Sim.rt "cargo" ["install"; "cargo-release"] None
                         (Sim.ran ("cargo-binstall", ["--help"], None)
                                  (Sim.ran ("cargo-release", ["--help"], None) bare)))))
    by (vm_compute; reflexivity).
  assert (H3' : exec offline "cargo" ["install"; "cargo-release"] None
                     (Sim.ran ("cargo-binstall", ["--help"], None)
                              (Sim.ran ("cargo-release", ["--help"], None) bare))
                = (Throw no_network,
                   Sim.ran ("cargo", ["install"; "cargo-release"], None)
                           (Sim.ran ("cargo-binstall", ["--help"], None)
                                    (Sim.ran ("cargo-release", ["--help"], None) bare))))
    by (vm_compute; reflexivity).
  destruct (@install_fallback _ Sim.rt Sim.crate_b "patch" "release/patch"
              (Sim.start bare)) as (_ & Hok & _).
  destruct (@install_fallback _ offline Sim.crate_b "patch" "release/patch"
              (Sim.start bare)) as (_ & _ & Hfail).
  assert (H4 : exec Sim.rt "cargo" (release_args "patch" "release/patch")
                    (Some (CrateDetails.path Sim.crate_b))
                    (snd (exec Sim.rt "cargo" ["install"; "cargo-release"] None
                            (Sim.ran ("cargo-binstall", ["--help"], None)
                                     (Sim.ran ("cargo-release", ["--help"], None) bare))))
               = (Ok 0%Z,
                  snd (exec Sim.rt "cargo" (release_args "patch" "release/patch")
                         (Some (CrateDetails.path Sim.crate_b))
                         (snd (exec Sim.rt "cargo" ["install"; "cargo-release"] None
                                 (Sim.ran ("cargo-binstall", ["--help"], None)
                                          (Sim.ran ("cargo-release", ["--help"], None)
                                                   bare)))))))
    by (vm_compute; reflexivity).
  rewrite (Hok _ _ _ _ _ _ _ H1 eq_refl H2 H3 H4 (or_introl eq_refl)).
  rewrite (Hfail _ _ _ _ _ _ H1 eq_refl H2 H3').
  repeat split; vm_compute; reflexivity.
Defined.

Lemma makePR_request_witness :
  makePR Sim.rt foo_inputs crate_foo "main" "release/patch" "1.2.3" (Sim.start foo_world)
  = (Ok tt, snd (makePR Sim.rt foo_inputs crate_foo "main" "release/patch" "1.2.3"
                        (Sim.start foo_world)))
  /\ exists title template s1 body url w,
      ejs_render Sim.rt (pr_title (in_pr foo_inputs))
                 (initial_vars foo_inputs crate_foo "release/patch" "1.2.3")
      = Ok title
      /\ bodyTemplate Sim.rt (in_pr foo_inputs) (Sim.start foo_world) = (Ok template, s1)
      /\ ejs_render Sim.rt template
           (set_title (initial_vars foo_inputs crate_foo "release/patch" "1.2.3") title)
         = Ok body
      /\ create_pull Sim.rt (githubToken foo_inputs)
           {| pull_title := title;
              pull_body := body;
              pull_head := "release/patch";
              pull_base := "main";
              pull_maintainer_can_modify := pr_modifiable (in_pr foo_inputs);
              pull_draft := pr_draft (in_pr foo_inputs) |} (world s1)
         = (Ok url, w)
      /\ snd (makePR Sim.rt foo_inputs crate_foo "main" "release/patch" "1.2.3"
                     (Sim.start foo_world))
         = {| world := w;
              log := (log s1 ++ [Info ("PR opened: " ++ url);
                                 SetOutput "pr-url" url])%list |}.
Proof.
  assert (H : makePR Sim.rt foo_inputs crate_foo "main" "release/patch" "1.2.3"
                     (Sim.start foo_world)
              = (Ok tt, snd (makePR Sim.rt foo_inputs crate_foo "main" "release/patch"
                                    "1.2.3" (Sim.start foo_world))))
    by (vm_compute; reflexivity).
  split; [exact H|].
  exact (proj1 (@makePR_request _ Sim.rt foo_inputs crate_foo "main" "release/patch"
                  "1.2.3" (Sim.start foo_world)) _ H).
Defined.

(** The template file named by the inputs is not there: no pull request
    is made, although an inline template is given. *)
Lemma unreadable_template_file_is_fatal_witness :
  pr_templateFile (in_pr (Sim.given missing_file)) = Some "/repo/missing.ejs"
  /\ pr_template (in_pr (Sim.given missing_file)) = Some "inline"
  /\ makePR Sim.rt (Sim.given missing_file) Sim.crate_a "main" "release/patch" "1.0.1"
            (Sim.start missing_file)
     = (Throw (JsError "ENOENT: no such file or directory, open /repo/missing.ejs"),
        Sim.start missing_file).
Proof.
  split; [reflexivity|]. split; [reflexivity|].
  apply (@unreadable_template_file_is_fatal _ Sim.rt (Sim.given missing_file)
           Sim.crate_a "main" "release/patch" "1.0.1" (Sim.start missing_file)
           "release: a v1.0.1" "/repo/missing.ejs"
           (JsError "ENOENT: no such file or directory, open /repo/missing.ejs")
           missing_file).
  - vm_compute; reflexivity.
  - reflexivity.
  - reflexivity.
  - vm_compute; reflexivity.
Defined.

(** The commands of the run that releases [b] 2.0.1, in their order. *)
Lemma run_data_flow_witness :
  run Sim.rt (Sim.start bumping) = (Ok tt, snd (run Sim.rt (Sim.start bumping)))
  /\ map (fun p => (fst (fst p), hd "" (snd (fst p))))
         (Sim.processes (world (snd (run Sim.rt (Sim.start bumping)))))
     = [("git", "config"); ("git", "config"); ("git", "switch");
        ("cargo", "metadata"); ("cargo-release", "--help"); ("cargo", "release");
        ("cargo", "metadata"); ("git", "push")]
  /\ exists inputs w0 w1 w2 base w3 w4 crate s5 newVersion s6 w7,
      getInputs Sim.rt (world (Sim.start bumping)) = (Ok inputs, w0)
      /\ exec Sim.rt "git" ["config"; "user.name"; git_name (in_git inputs)] None w0
         = (Ok 0%Z, w1)
      /\ exec Sim.rt "git" ["config"; "user.email"; git_email (in_git inputs)] None w1
         = (Ok 0%Z, w2)
      /\ (if truthy (baseBranch inputs)
          then baseBranch inputs = Some base /\ w3 = w2
          else get_default_branch Sim.rt (githubToken inputs) w2 = (Ok base, w3))
      /\ exec Sim.rt "git"
           ["switch"; "-c";
            git_branchPrefix (in_git inputs)
            ++ git_branchSeparator (in_git inputs) ++ in_version inputs] None w3
         = (Ok 0%Z, w4)
      /\ findCrate Sim.rt (in_crate inputs)
           {| world := w4;
              log := (log (Sim.start bumping)
                      ++ [Info ("Setting git user details: " ++ git_name (in_git inputs)
                                ++ " <" ++ git_email (in_git inputs) ++ ">");
                          Info ("Creating branch "
                                ++ (git_branchPrefix (in_git inputs)
                                    ++ git_branchSeparator (in_git inputs)
                                    ++ in_version inputs));
                          SetOutput "pr-branch"
                            (git_branchPrefix (in_git inputs)
                             ++ git_branchSeparator (in_git inputs)
                             ++ in_version inputs)])%list |}
         = (Ok crate, s5)
      /\ runCargoRelease Sim.rt crate (in_version inputs)
           (git_branchPrefix (in_git inputs)
            ++ git_branchSeparator (in_git inputs) ++ in_version inputs) s5
         = (Ok newVersion, s6)
      /\ exec Sim.rt "git"
           ["push"; "origin";
            git_branchPrefix (in_git inputs)
            ++ git_branchSeparator (in_git inputs) ++ in_version inputs] None (world s6)
         = (Ok 0%Z, w7)
      /\ makePR Sim.rt inputs crate base
           (git_branchPrefix (in_git inputs)
            ++ git_branchSeparator (in_git inputs) ++ in_version inputs)
           newVersion {| world := w7; log := log s6 |}
         = (Ok tt, snd (run Sim.rt (Sim.start bumping))).
Proof.
  assert (H : run Sim.rt (Sim.start bumping)
              = (Ok tt, snd (run Sim.rt (Sim.start bumping))))
    by (vm_compute; reflexivity).
  split; [exact H|]. split; [vm_compute; reflexivity|].
  exact (proj1 (@run_data_flow _ Sim.rt _ _) H).
Defined.
